(** * Shard routing and catalogue layer of marconi

    A shallow embedding of
    - [marconi/queues/storage/sharding.py]: [Catalog] and the routing
      controllers [QueueController], [MessageController], [ClaimController];
    - [marconi/proxy/storage/mongodb/partitions.py]: [PartitionsController].

    Python code that mutates [self] and raises is embedded as a state and
    error monad: a computation maps a state to the state it leaves behind
    and either the exception it raised or the value it returned.  A raise
    keeps every mutation made before it, as in Python. *)

From stdpp Require Import gmap strings list fin_maps.
From Stdlib Require Import ZArith Lia Ascii.

Open Scope string_scope.
Open Scope list_scope.
Open Scope Z_scope.

Set Warnings "-register-all".

(** ** Python values crossing the routing layer *)

Inductive pyval :=
| PyNone
| PyBool (b : bool)
| PyInt (z : Z)
| PyStr (s : string)
| PyList (l : list pyval)
| PyIter (l : list pyval).

(** [project=None] is the global project. *)
Definition project_val (project : option string) : pyval :=
  match project with
  | Some p => PyStr p
  | None => PyNone
  end.

(** [type(v)], by name; text is unicode text. *)
Definition type_name (v : pyval) : string :=
  match v with
  | PyNone => "NoneType"
  | PyBool _ => "bool"
  | PyInt _ => "int"
  | PyStr _ => "unicode"
  | PyList _ => "list"
  | PyIter _ => "listiterator"
  end.

(** ** Exceptions

    The arguments are kept in the order in which the raising code passes
    them.  [BackendError] is whatever a storage backend raised. *)

Inductive exn :=
| QueueNotMapped (queue : string) (project : option string)
| QueueDoesNotExist (arg1 arg2 : pyval)
| ClaimDoesNotExist (claim_id queue : string) (project : option string)
| NoShardFound
| NotFound (shard_id : string)
| InvalidDriver (storage_type : string)
| AssertionError (msg : string)
| PartitionNotFound (name : string)
| KeyError (key : string)
| BackendError (e : string).

(** ** Shard records and drivers *)

Record shard := Shard {
  sh_name : string;
  sh_weight : Z;
  sh_uri : string;
  sh_options : gmap string pyval
}.

(** The configuration [_init_driver] registers: the general options, the
    options of group [queues:drivers], and the storage options with the
    name of their group. *)
Record conf := Conf {
  general_opts : gmap string pyval;
  driver_opts : gmap string pyval;
  storage_group : string;
  storage_opts : gmap string pyval
}.

(** A driver object.  [drv_obj] is the identity of the object: two drivers
    built by two calls of the factory differ in it even when they were
    built from the same configuration.  A driver object is taken to be
    truthy, so that [if target] and [assert target] test [target] against
    [None]: a looked-up target is an [option driver]. *)
Record driver := Driver {
  drv_obj : nat;
  drv_conf : conf
}.

(** The calls the routing controllers forward to a shard's controllers. *)
Inductive call :=
| QueueCreate (name : string) (project : option string)
| QueueDelete (name : string) (project : option string)
| QueueExists (name : string) (project : option string)
| QueueGetMetadata (name : string) (project : option string)
| QueueSetMetadata (name : string) (metadata : pyval) (project : option string)
| QueueStats (name : string) (project : option string)
| MessagePost (queue : string) (project : option string)
    (messages client_uuid : pyval)
| MessageDelete (queue : string) (project : option string)
    (message_id : string) (claim : pyval)
| MessageBulkDelete (queue : string) (project : option string)
    (message_ids : pyval)
| MessageBulkGet (queue : string) (project : option string)
    (message_ids : pyval)
| MessageList (queue : string) (project : option string)
    (marker limit echo client_uuid include_claimed : pyval)
| MessageGet (queue : string) (message_id : string) (project : option string)
| ClaimCreate (queue : string) (metadata : pyval) (project : option string)
    (limit : pyval)
| ClaimGet (queue claim_id : string) (project : option string)
| ClaimUpdate (queue claim_id : string) (metadata : pyval)
    (project : option string)
| ClaimDelete (queue claim_id : string) (project : option string).

(** ** The Weighted Selector *)

Definition total_weight (candidates : list shard) : Z :=
  foldr (fun c acc => sh_weight c + acc) 0 candidates.

Fixpoint first_exceeding (acc point : Z) (candidates : list shard)
  : option shard :=
  match candidates with
  | [] => None
  | c :: rest =>
      let acc' := acc + sh_weight c in
      if point <? acc' then Some c else first_exceeding acc' point rest
  end.

(** Modelled from the spec: [marconi.common.storage.select.weighted] is not
    among the sources.  The spec (4.1): compute the total weight; if it is 0
    or the sequence is empty return none; otherwise draw a point in
    [0, total) and return the first candidate whose cumulative weight
    exceeds the point.  The random generator's output is the argument
    [rnd]; it is brought into [0, total) by [mod]. *)
Definition weighted (rnd : Z) (candidates : list shard) : option shard :=
  let total := total_weight candidates in
  if total =? 0 then None
  else first_exceeding 0 (rnd `mod` total) candidates.

(** ** The environment of the routing layer

    The storage backends behind the drivers are external: their state is
    [backend], and a forwarded call either raises or returns a value.
    [urlparse_scheme] is [urlparse(uri).scheme]; [driver_installed] says
    whether stevedore finds a plugin for a storage type in the namespace
    [marconi.queues.data.storage]; [pytype_to_cfgtype] is the table of
    [common_utils] that gives the option class for the type of a value,
    with no entry for some types. *)
Class Environment := {
  backend : Type;
  backend_call : driver -> call -> backend -> backend * (string + pyval);
  urlparse_scheme : string -> string;
  driver_installed : string -> bool;
  pytype_to_cfgtype : string -> option string
}.

Section Sharding.

Context {env : Environment}.

(** ** State *)

Record state := State {
  (** the durable catalogue store: (project, queue) to shard id *)
  catalogue : gmap (option string * string) string;
  (** the durable shard store, in listing order *)
  shards : list shard;
  (** [Catalog._drivers] *)
  drivers : gmap string driver;
  (** every driver object the factory has built, oldest first *)
  constructed : list driver;
  (** the backends *)
  storage : backend
}.

Definition set_catalogue (f : gmap (option string * string) string ->
                              gmap (option string * string) string)
  (s : state) : state :=
  State (f (catalogue s)) (shards s) (drivers s) (constructed s) (storage s).

Definition set_shards (f : list shard -> list shard) (s : state) : state :=
  State (catalogue s) (f (shards s)) (drivers s) (constructed s) (storage s).

Definition set_drivers (f : gmap string driver -> gmap string driver)
  (s : state) : state :=
  State (catalogue s) (shards s) (f (drivers s)) (constructed s) (storage s).

Definition set_constructed (f : list driver -> list driver) (s : state)
  : state :=
  State (catalogue s) (shards s) (drivers s) (f (constructed s)) (storage s).

Definition set_storage (f : backend -> backend) (s : state) : state :=
  State (catalogue s) (shards s) (drivers s) (constructed s) (f (storage s)).

(** ** The monad *)

Definition M (A : Type) : Type := state -> state * (exn + A).

Definition ret {A} (a : A) : M A := fun s => (s, inr a).

Definition raise {A} (e : exn) : M A := fun s => (s, inl e).

Definition bind {A B} (m : M A) (k : A -> M B) : M B :=
  fun s =>
    match m s with
    | (s', inl e) => (s', inl e)
    | (s', inr a) => k a s'
    end.

(** [try: m except <h matches>: ...]: the handler [h] says which
    exceptions it catches. *)
Definition try_except {A} (m : M A) (h : exn -> option (M A)) : M A :=
  fun s =>
    match m s with
    | (s', inl e) =>
        match h e with
        | Some k => k s'
        | None => (s', inl e)
        end
    | (s', inr a) => (s', inr a)
    end.

Definition get_state : M state := fun s => (s, inr s).

Definition modify (f : state -> state) : M unit := fun s => (f s, inr tt).

Notation "x <- m ;; k" := (bind m (fun x => k))
  (at level 100, m at next level, right associativity).
Notation "m ;;; k" := (bind m (fun _ => k))
  (at level 100, right associativity).

(** ** The durable stores *)

(** Modelled from the spec: the catalogue controller is not among the
    sources.  The spec (6): exists/get/insert/delete keyed by
    (project, queue) giving a shard id; by [Catalog.lookup], [get] raises
    [QueueNotMapped] for a key without entry. *)
Definition catalogue_exists (project : option string) (queue : string)
  : M bool :=
  s <- get_state ;;
  ret (bool_decide (is_Some (catalogue s !! (project, queue)))).

Definition catalogue_get (project : option string) (queue : string)
  : M string :=
  s <- get_state ;;
  match catalogue s !! (project, queue) with
  | Some shard_id => ret shard_id
  | None => raise (QueueNotMapped queue project)
  end.

Definition catalogue_insert (project : option string) (queue : string)
  (shard_id : string) : M unit :=
  modify (set_catalogue (fun c => <[(project, queue) := shard_id]> c)).

Definition catalogue_delete (project : option string) (queue : string)
  : M unit :=
  modify (set_catalogue (fun c => delete (project, queue) c)).

(** Modelled from the spec: the shards controller is not among the
    sources.  The spec (4.2): [list] gives the records, [get] gives the
    record with the id and fails with NotFound if it is absent, [delete]
    removes it and does not fail when it is absent. *)
Definition shards_list : M (list shard) :=
  s <- get_state ;; ret (shards s).

Definition find_shard (shard_id : string) (l : list shard) : option shard :=
  List.find (fun sh => bool_decide (sh_name sh = shard_id)) l.

Definition shards_get (shard_id : string) : M shard :=
  s <- get_state ;;
  match find_shard shard_id (shards s) with
  | Some sh => ret sh
  | None => raise (NotFound shard_id)
  end.

Definition shards_delete (shard_id : string) : M unit :=
  modify (set_shards
            (filter (fun sh => sh_name sh <> shard_id))).

(** ** [utils.load_storage_driver]

    In data mode, as [_init_driver] calls it.  The plugin named by
    [conf['queues:drivers'].storage] is loaded and called with the
    configuration, which builds a new driver object; stevedore's
    RuntimeError for a plugin that is not installed becomes InvalidDriver.
    [_init_driver] always sets the option to a string, so the last branch
    is not reached from it. *)

Definition load_storage_driver (c : conf) : M driver :=
  match driver_opts c !! "storage" with
  | Some (PyStr storage_type) =>
      if driver_installed storage_type then
        s <- get_state ;;
        let d := Driver (length (constructed s)) c in
        modify (set_constructed (fun l => (l ++ [d])%list)) ;;;
        ret d
      else raise (InvalidDriver storage_type)
  | _ => raise (InvalidDriver "")
  end.

(** ** [common_utils.dict_to_conf]

    The function is not among the sources; [_init_driver] shows its use
    and the table is the environment's.  It turns each item [(k, v)] of
    a dict into an option named [k] with default [v], of the class
    [_pytype_to_cfgtype[type(v)]]; that subscript raises KeyError for a
    type without entry, at the first such item the iteration meets.  The
    options it returns are kept as the dict of their defaults, the class
    of an option being given by its default. *)
Definition unconvertible (options : gmap string pyval)
  : option (string * pyval) :=
  List.find (fun kv => match pytype_to_cfgtype (type_name kv.2) with
                       | None => true
                       | Some _ => false
                       end)
    (map_to_list options).

Definition dict_to_conf (options : gmap string pyval)
  : M (gmap string pyval) :=
  match unconvertible options with
  | Some kv => raise (KeyError (type_name kv.2))
  | None => ret options
  end.

(** ** [Catalog] *)

Definition _init_driver (shard_id : string) : M driver :=
  sh <- shards_get shard_id ;;
  let general_dict_opts : gmap string pyval := {["dynamic" := PyBool true]} in
  general_opts <- dict_to_conf general_dict_opts ;;
  let uri := sh_uri sh in
  let storage_type := urlparse_scheme uri in
  let driver_dict_opts : gmap string pyval :=
    {["storage" := PyStr storage_type]} in
  driver_opts <- dict_to_conf driver_dict_opts ;;
  let storage_dict_opts := <["uri" := PyStr uri]> (sh_options sh) in
  storage_opts <- dict_to_conf storage_dict_opts ;;
  let storage_group := String.append "queues:drivers:storage:" storage_type in
  load_storage_driver
    (Conf general_opts driver_opts storage_group storage_opts).

Definition register (rnd : Z) (queue : string) (project : option string)
  : M unit :=
  mapped <- catalogue_exists project queue ;;
  if negb mapped then
    l <- shards_list ;;
    match weighted rnd l with
    | None => raise NoShardFound
    | Some sh => catalogue_insert project queue (sh_name sh)
    end
  else ret tt.

Definition deregister (queue : string) (project : option string) : M unit :=
  catalogue_delete project queue.

Definition lookup (queue : string) (project : option string)
  : M (option driver) :=
  r <- try_except
         (shard_id <- catalogue_get project queue ;; ret (Some shard_id))
         (fun e => match e with
                   | QueueNotMapped _ _ => Some (ret None)
                   | _ => None
                   end) ;;
  match r with
  | None => ret None
  | Some shard_id =>
      s <- get_state ;;
      match drivers s !! shard_id with
      | Some d => ret (Some d)
      | None =>
          d <- _init_driver shard_id ;;
          modify (set_drivers (fun m => <[shard_id := d]> m)) ;;;
          ret (Some d)
      end
  end.

(** ** Forwarding to the controllers of a shard's driver

    [getattr(target, ctrl).method(...)]: the backend's new state is kept,
    and what the backend raises or returns passes through unchanged. *)
Definition forward (target : driver) (c : call) : M pyval :=
  fun s =>
    match backend_call target c (storage s) with
    | (b, inl e) => (set_storage (fun _ => b) s, inl (BackendError e))
    | (b, inr v) => (set_storage (fun _ => b) s, inr v)
    end.

(** ** [QueueController] *)

Definition QueueController_list (project : option string)
  (marker limit detailed : pyval) : M pyval :=
  ret (PyList []).

(** What [create] does once [register] has returned. *)
Definition QueueController_create_registered (name : string)
  (project : option string) : M pyval :=
  target <- lookup name project ;;
  match target with
  | None => raise (AssertionError "Failed to register queue")
  | Some t => forward t (QueueCreate name project)
  end.

Definition QueueController_create (rnd : Z) (name : string)
  (project : option string) : M pyval :=
  register rnd name project ;;;
  QueueController_create_registered name project.

Definition QueueController_delete (name : string) (project : option string)
  : M pyval :=
  target <- lookup name project ;;
  match target with
  | Some t =>
      r <- forward t (QueueDelete name project) ;;
      deregister name project ;;;
      ret r
  | None => ret PyNone
  end.

Definition QueueController_exists (name : string) (project : option string)
  : M pyval :=
  target <- lookup name project ;;
  match target with
  | Some t => forward t (QueueExists name project)
  | None => ret (PyBool false)
  end.

Definition QueueController_get_metadata (name : string)
  (project : option string) : M pyval :=
  target <- lookup name project ;;
  match target with
  | Some t => forward t (QueueGetMetadata name project)
  | None => raise (QueueDoesNotExist (PyStr name) (project_val project))
  end.

Definition QueueController_set_metadata (name : string) (metadata : pyval)
  (project : option string) : M pyval :=
  target <- lookup name project ;;
  match target with
  | Some t => forward t (QueueSetMetadata name metadata project)
  | None => raise (QueueDoesNotExist (PyStr name) (project_val project))
  end.

Definition QueueController_stats (name : string) (project : option string)
  : M pyval :=
  target <- lookup name project ;;
  match target with
  | Some t => forward t (QueueStats name project)
  | None => raise (QueueDoesNotExist (PyStr name) (project_val project))
  end.

(** ** [MessageController] *)

Definition MessageController_post (queue : string) (project : option string)
  (messages client_uuid : pyval) : M pyval :=
  target <- lookup queue project ;;
  match target with
  | Some t => forward t (MessagePost queue project messages client_uuid)
  | None => raise (QueueDoesNotExist (project_val project) (PyStr queue))
  end.

Definition MessageController_delete (queue : string)
  (project : option string) (message_id : string) (claim : pyval)
  : M pyval :=
  target <- lookup queue project ;;
  match target with
  | Some t => forward t (MessageDelete queue project message_id claim)
  | None => ret PyNone
  end.

Definition MessageController_bulk_delete (queue : string)
  (project : option string) (message_ids : pyval) : M pyval :=
  target <- lookup queue project ;;
  match target with
  | Some t => forward t (MessageBulkDelete queue project message_ids)
  | None => ret PyNone
  end.

Definition MessageController_bulk_get (queue : string)
  (project : option string) (message_ids : pyval) : M pyval :=
  target <- lookup queue project ;;
  match target with
  | Some t => forward t (MessageBulkGet queue project message_ids)
  | None => ret (PyList [])
  end.

Definition MessageController_list (queue : string) (project : option string)
  (marker limit echo client_uuid include_claimed : pyval) : M pyval :=
  target <- lookup queue project ;;
  match target with
  | Some t =>
      forward t (MessageList queue project marker limit echo client_uuid
                   include_claimed)
  | None => ret (PyIter [PyList []])
  end.

Definition MessageController_get (queue : string) (message_id : string)
  (project : option string) : M pyval :=
  target <- lookup queue project ;;
  match target with
  | Some t => forward t (MessageGet queue message_id project)
  | None => raise (QueueDoesNotExist (project_val project) (PyStr queue))
  end.

(** ** [ClaimController] *)

Definition ClaimController_create (queue : string) (metadata : pyval)
  (project : option string) (limit : pyval) : M pyval :=
  target <- lookup queue project ;;
  match target with
  | Some t => forward t (ClaimCreate queue metadata project limit)
  | None => ret (PyList [PyNone; PyList []])
  end.

Definition ClaimController_get (queue claim_id : string)
  (project : option string) : M pyval :=
  target <- lookup queue project ;;
  match target with
  | Some t => forward t (ClaimGet queue claim_id project)
  | None => raise (ClaimDoesNotExist claim_id queue project)
  end.

Definition ClaimController_update (queue claim_id : string)
  (metadata : pyval) (project : option string) : M pyval :=
  target <- lookup queue project ;;
  match target with
  | Some t => forward t (ClaimUpdate queue claim_id metadata project)
  | None => raise (ClaimDoesNotExist claim_id queue project)
  end.

Definition ClaimController_delete (queue claim_id : string)
  (project : option string) : M pyval :=
  target <- lookup queue project ;;
  match target with
  | Some t => forward t (ClaimDelete queue claim_id project)
  | None => ret PyNone
  end.

(** ** [Catalog.lookup] between its suspension points

    A caller of [lookup] can be suspended where it waits for a store: at
    the read of the catalogue, and, after a miss in [_drivers], at the read
    of the shard store in [_init_driver].  Between two such points the
    code runs without interruption.  [lookup_pc] is where a caller
    stands. *)
Inductive lookup_pc :=
| AtCatalogue (queue : string) (project : option string)
| AtInitDriver (shard_id : string)
| Returned (r : exn + option driver).

Definition lookup_step (pc : lookup_pc) (s : state) : state * lookup_pc :=
  match pc with
  | AtCatalogue queue project =>
      match catalogue s !! (project, queue) with
      | None => (s, Returned (inr None))
      | Some shard_id =>
          match drivers s !! shard_id with
          | Some d => (s, Returned (inr (Some d)))
          | None => (s, AtInitDriver shard_id)
          end
      end
  | AtInitDriver shard_id =>
      match _init_driver shard_id s with
      | (s', inl e) => (s', Returned (inl e))
      | (s', inr d) =>
          (set_drivers (fun m => <[shard_id := d]> m) s',
           Returned (inr (Some d)))
      end
  | Returned r => (s, Returned r)
  end.

(** Callers in flight, and a schedule: which caller runs its next piece. *)
Fixpoint run_threads (schedule : list nat) (pcs : list lookup_pc) (s : state)
  : state * list lookup_pc :=
  match schedule with
  | [] => (s, pcs)
  | i :: rest =>
      match pcs !! i with
      | None => run_threads rest pcs s
      | Some pc =>
          let '(s', pc') := lookup_step pc s in
          run_threads rest (<[i := pc']> pcs) s'
      end
  end.





End Sharding.

(** ** The routing layer as its callers see it

    The transport calls the sharded controllers with the arguments of
    [call]; [dispatch] is that call.  [rnd] is the random generator's
    output, used by [QueueController.create] only. *)
Section Requests.

Context {env : Environment}.

Definition call_queue (c : call) : string :=
  match c with
  | QueueCreate name _ | QueueDelete name _ | QueueExists name _
  | QueueGetMetadata name _ | QueueSetMetadata name _ _
  | QueueStats name _ => name
  | MessagePost queue _ _ _ | MessageDelete queue _ _ _
  | MessageBulkDelete queue _ _ | MessageBulkGet queue _ _
  | MessageList queue _ _ _ _ _ _ | MessageGet queue _ _
  | ClaimCreate queue _ _ _ | ClaimGet queue _ _
  | ClaimUpdate queue _ _ _ | ClaimDelete queue _ _ => queue
  end.

Definition call_project (c : call) : option string :=
  match c with
  | QueueCreate _ project | QueueDelete _ project | QueueExists _ project
  | QueueGetMetadata _ project | QueueSetMetadata _ _ project
  | QueueStats _ project
  | MessagePost _ project _ _ | MessageDelete _ project _ _
  | MessageBulkDelete _ project _ | MessageBulkGet _ project _
  | MessageList _ project _ _ _ _ _ | MessageGet _ _ project
  | ClaimCreate _ _ project _ | ClaimGet _ _ project
  | ClaimUpdate _ _ _ project | ClaimDelete _ _ project => project
  end.

Definition dispatch (rnd : Z) (c : call) : state -> state * (exn + pyval) :=
  match c with
  | QueueCreate name project => QueueController_create rnd name project
  | QueueDelete name project => QueueController_delete name project
  | QueueExists name project => QueueController_exists name project
  | QueueGetMetadata name project =>
      QueueController_get_metadata name project
  | QueueSetMetadata name metadata project =>
      QueueController_set_metadata name metadata project
  | QueueStats name project => QueueController_stats name project
  | MessagePost queue project messages client_uuid =>
      MessageController_post queue project messages client_uuid
  | MessageDelete queue project message_id claim =>
      MessageController_delete queue project message_id claim
  | MessageBulkDelete queue project message_ids =>
      MessageController_bulk_delete queue project message_ids
  | MessageBulkGet queue project message_ids =>
      MessageController_bulk_get queue project message_ids
  | MessageList queue project marker limit echo client_uuid
      include_claimed =>
      MessageController_list queue project marker limit echo client_uuid
        include_claimed
  | MessageGet queue message_id project =>
      MessageController_get queue message_id project
  | ClaimCreate queue metadata project limit =>
      ClaimController_create queue metadata project limit
  | ClaimGet queue claim_id project =>
      ClaimController_get queue claim_id project
  | ClaimUpdate queue claim_id metadata project =>
      ClaimController_update queue claim_id metadata project
  | ClaimDelete queue claim_id project =>
      ClaimController_delete queue claim_id project
  end.

(** The configuration [_init_driver] derives from a shard record, and the
    state after a driver built from it is stored under the shard id. *)
Definition shard_conf (sh : shard) : conf :=
  Conf {["dynamic" := PyBool true]}
    {["storage" := PyStr (urlparse_scheme (sh_uri sh))]}
    (String.append "queues:drivers:storage:" (urlparse_scheme (sh_uri sh)))
    (<["uri" := PyStr (sh_uri sh)]> (sh_options sh)).

(** The KeyError of the first of the three [dict_to_conf] calls of
    [_init_driver] that fails on a shard record, if one does. *)
Definition conf_error (sh : shard) : option exn :=
  match unconvertible {["dynamic" := PyBool true]} with
  | Some kv => Some (KeyError (type_name kv.2))
  | None =>
      match unconvertible
              {["storage" := PyStr (urlparse_scheme (sh_uri sh))]} with
      | Some kv => Some (KeyError (type_name kv.2))
      | None =>
          match unconvertible
                  (<["uri" := PyStr (sh_uri sh)]> (sh_options sh)) with
          | Some kv => Some (KeyError (type_name kv.2))
          | None => None
          end
      end
  end.

(** The values [_init_driver] hands to [dict_to_conf] for a shard record:
    the flag [dynamic], the storage type, and the record's options with
    its URI. *)
Definition conf_value (sh : shard) (v : pyval) : Prop :=
  v = PyBool true \/ v = PyStr (urlparse_scheme (sh_uri sh)) \/
  exists k, (<["uri" := PyStr (sh_uri sh)]> (sh_options sh)) !! k = Some v.

(** Every one of them has an option class. *)
Definition convertible (sh : shard) : Prop :=
  forall v, conf_value sh v -> is_Some (pytype_to_cfgtype (type_name v)).

Definition with_driver (shard_id : string) (d : driver) (s : state) : state :=
  set_drivers (fun m => <[shard_id := d]> m)
    (set_constructed (fun l => l ++ [d]) s).

(** The state after a sequence of calls, one after the other, whatever
    each of them returned or raised. *)
Definition run_requests (reqs : list (Z * call)) (s : state) : state :=
  foldl (fun s' rc => (dispatch rc.1 rc.2 s').1) s reqs.

(** As many cache entries as drivers built, and every cached driver is one
    that was built. *)
Definition cache_consistent (s : state) : Prop :=
  size (drivers s) = length (constructed s) /\
  forall shard_id d, drivers s !! shard_id = Some d -> d ∈ constructed s.

(** From [s] to [s'] the cache has grown and stayed consistent. *)
Definition cache_grows (s s' : state) : Prop :=
  drivers s ⊆ drivers s' /\
  constructed s `prefix_of` constructed s' /\
  (cache_consistent s -> cache_consistent s').

(** ** [RoutingController.__getattr__]

    The closure [forward] that stands in for a method the controller
    class does not define.  [project] is read from the keyword arguments
    only; the target controller is an attribute of what [lookup]
    returned, and [getattr] on [None] raises AttributeError.
    [controller_call] is the method [name] of the driver's controller
    [ctrl], called with the same arguments. *)
Variable controller_call :
  driver -> string -> string -> string -> list pyval ->
  option (option string) * list (string * pyval) ->
  backend -> backend * (string + pyval).

Inductive routed_exn :=
| AttributeError (obj attr : string)
| Raised (e : exn).

(** [kwargs.get('project')]: the keyword arguments are the [project]
    keyword, if passed, and the others. *)
Definition kwargs_get_project
  (kwargs : option (option string) * list (string * pyval))
  : option string :=
  match kwargs.1 with
  | Some project => project
  | None => None
  end.

Definition RoutingController_forward (_resource_name name queue : string)
  (args : list pyval)
  (kwargs : option (option string) * list (string * pyval))
  (s : state) : state * (routed_exn + pyval) :=
  let _ctrl_property_name := String.append _resource_name "_controller" in
  match lookup queue (kwargs_get_project kwargs) s with
  | (s1, inl e) => (s1, inl (Raised e))
  | (s1, inr None) =>
      (s1, inl (AttributeError "NoneType" _ctrl_property_name))
  | (s1, inr (Some target)) =>
      match controller_call target _ctrl_property_name name queue args
              kwargs (storage s1) with
      | (b, inl e) =>
          (set_storage (fun _ => b) s1, inl (Raised (BackendError e)))
      | (b, inr v) => (set_storage (fun _ => b) s1, inr v)
      end
  end.

End Requests.

(** ** [PartitionsController] (proxy, MongoDB)

    The collection [partitions] is a list of documents, a document a map
    from field names to values.  The store is taken to be reachable: the
    decorator [raises_conn_error] only renames pymongo's connection
    failure. *)
Module Partitions.

Definition has_name (name : string) (d : gmap string pyval) : bool :=
  match d !! "n" with
  | Some (PyStr n) => String.eqb n name
  | _ => false
  end.

(** [k[0]] *)
Definition first_char (k : string) : string :=
  match k with
  | String c _ => String c EmptyString
  | EmptyString => EmptyString
  end.

Definition is_none (v : pyval) : bool :=
  match v with
  | PyNone => true
  | _ => false
  end.

(** [{'n': ..., 'h': ..., 'w': ...}] to [{'name', 'hosts', 'weight'}].
    The subscripts [entry['n']], [entry['h']], [entry['w']] are evaluated
    in this order, and each raises KeyError on a document without the
    field. *)
Definition _normalize (entry : gmap string pyval)
  : exn + gmap string pyval :=
  match entry !! "n" with
  | None => inl (KeyError "n")
  | Some n =>
      match entry !! "h" with
      | None => inl (KeyError "h")
      | Some h =>
          match entry !! "w" with
          | None => inl (KeyError "w")
          | Some w =>
              inr (<["name" := n]> (<["hosts" := h]> {["weight" := w]}))
          end
      end
  end.

(** Whether a record, as [_normalize] gives it, has the name. *)
Definition record_named (name : string) (r : gmap string pyval) : bool :=
  match r !! "name" with
  | Some (PyStr n) => String.eqb n name
  | _ => false
  end.

(** [col.update({'n': name}, {'$set': fields}, upsert=False)]: the first
    document with that name gets the fields; the flag is
    [res['updatedExisting']]. *)
Fixpoint col_update (name : string) (fields : gmap string pyval)
  (col : list (gmap string pyval)) : list (gmap string pyval) * bool :=
  match col with
  | [] => ([], false)
  | d :: rest =>
      if has_name name d then ((fields ∪ d) :: rest, true)
      else
        let '(rest', updatedExisting) := col_update name fields rest in
        (d :: rest', updatedExisting)
  end.

Definition get (name : string) (col : list (gmap string pyval))
  : exn + gmap string pyval :=
  match List.find (has_name name) col with
  | None => inl (PartitionNotFound name)
  | Some partition => _normalize partition
  end.

Definition exists_ (name : string) (col : list (gmap string pyval)) : bool :=
  match List.find (has_name name) col with
  | None => false
  | Some _ => true
  end.

Definition create (name : string) (weight hosts : pyval)
  (col : list (gmap string pyval)) : list (gmap string pyval) :=
  let fields : gmap string pyval :=
    <["n" := PyStr name]> (<["w" := weight]> {["h" := hosts]}) in
  let '(col', updatedExisting) := col_update name fields col in
  if updatedExisting then col' else (col ++ [fields])%list.

Definition delete (name : string) (col : list (gmap string pyval))
  : list (gmap string pyval) :=
  List.filter (fun d => negb (has_name name d)) col.

(** One turn of the comprehension in [update]: the pair [(k[0], v)] goes
    into the dict when [k in ('hosts', 'weight') and v is not None]. *)
Definition set_field (fields : gmap string pyval) (kv : string * pyval)
  : gmap string pyval :=
  if bool_decide (kv.1 ∈ ["hosts"; "weight"]) && negb (is_none kv.2)
  then <[first_char kv.1 := kv.2]> fields
  else fields.

(** [dict((k[0], v) for k, v in kwargs.items()
          if k in ('hosts', 'weight') and v is not None)] *)
Definition update_fields (kwargs : list (string * pyval))
  : gmap string pyval :=
  foldl set_field ∅ kwargs.

Definition update (name : string) (kwargs : list (string * pyval))
  (col : list (gmap string pyval))
  : list (gmap string pyval) * (exn + unit) :=
  let fields := update_fields kwargs in
  if Nat.eqb (size fields) 0 then
    (col, inl (AssertionError "`hosts` or `weight` not found in kwargs"))
  else
    let '(col', updatedExisting) := col_update name fields col in
    if updatedExisting then (col', inr tt)
    else (col', inl (PartitionNotFound name)).

(** [list]: the generator yields [_normalize(entry)] for each document
    of the cursor; it ends when the cursor does, or with the KeyError of
    the first document [_normalize] fails on.  The result is what was
    yielded and the error that ended the generator, if there is one. *)
Fixpoint list_ (col : list (gmap string pyval))
  : list (gmap string pyval) * option exn :=
  match col with
  | [] => ([], None)
  | entry :: cursor =>
      match _normalize entry with
      | inl e => ([], Some e)
      | inr r => (r :: (list_ cursor).1, (list_ cursor).2)
      end
  end.

(** [drop_all]: the collection is dropped; [ensure_index] then only
    declares the index on the empty collection. *)
Definition drop_all (col : list (gmap string pyval))
  : list (gmap string pyval) :=
  [].

(** How many documents have the name. *)
Definition count (name : string) (col : list (gmap string pyval)) : nat :=
  length (List.filter (has_name name) col).

(** A keyword argument is supplied when it is passed with a value other
    than [None]. *)
Definition supplied (k : string) (kwargs : list (string * pyval)) : Prop :=
  exists v, (k, v) ∈ kwargs /\ v <> PyNone.

End Partitions.

(** ** An environment to run the definitions in

    One backend that keeps the names of its queues and cannot delete the
    queue [audit]; the scheme of a URI is what stands before its first
    colon; only the [mongodb] plugin is installed; text, integers,
    booleans and lists have an option class, [None] and iterators have
    none. *)

Fixpoint example_scheme (uri : string) : string :=
  match uri with
  | EmptyString => EmptyString
  | String c rest =>
      if Ascii.eqb c ":"%char then EmptyString else String c (example_scheme rest)
  end.

Definition example_backend_call (d : driver) (c : call) (b : list string)
  : list string * (string + pyval) :=
  match c with
  | QueueCreate name _ => (name :: b, inr PyNone)
  | QueueDelete name _ =>
      if String.eqb name "audit" then (b, inl "ConnectionError")
      else (List.filter (fun n => negb (String.eqb n name)) b, inr PyNone)
  | _ => (b, inr PyNone)
  end.

Definition example_cfgtype (t : string) : option string :=
  if String.eqb t "unicode" then Some "StrOpt"
  else if String.eqb t "int" then Some "IntOpt"
  else if String.eqb t "bool" then Some "BoolOpt"
  else if String.eqb t "list" then Some "ListOpt"
  else None.

Definition example_env : Environment := {|
  backend := list string;
  backend_call := example_backend_call;
  urlparse_scheme := example_scheme;
  driver_installed := String.eqb "mongodb";
  pytype_to_cfgtype := example_cfgtype
|}.

Definition shard_s1 : shard :=
  Shard "s1" 100 "mongodb://localhost:27017" ∅.

(** Nothing registered, nothing cached, no shard. *)
Definition empty_state : state (env := example_env) :=
  @State example_env ∅ [] ∅ [] [].

(** One shard, nothing registered, nothing cached. *)
Definition one_shard : state (env := example_env) :=
  @State example_env ∅ [shard_s1] ∅ [] [].

(** Queue [orders] mapped to shard [s1], no driver built yet. *)
Definition orders_mapped : state (env := example_env) :=
  @State example_env {[(None, "orders") := "s1"]} [shard_s1] ∅ [] [].

(** Queue [q] was created on shard [s1], whose driver is cached; then the
    record of [s1] was deleted from the shard store. *)
Definition shard_gone : state (env := example_env) :=
  (shards_delete "s1"
     (QueueController_create 0 "q" None one_shard).1).1.

(** Queue [audit] created on shard [s1]; the driver [lookup] then gives. *)
Definition audit_created : state (env := example_env) :=
  (QueueController_create 0 "audit" None one_shard).1.


(** Queue [orders] mapped to shard [s1] and looked up once, so that the
    driver of [s1] is cached. *)
Definition orders_cached : state (env := example_env) :=
  (lookup "orders" None orders_mapped).1.

Definition orders_driver : driver :=
  match (lookup "orders" None orders_mapped).2 with
  | inr (Some t) => t
  | _ => Driver 0 (Conf ∅ ∅ "" ∅)
  end.

(** The collection after [create("s1", 100, ["10.0.0.1"])]. *)
Definition one_partition : list (gmap string pyval) :=
  Partitions.create "s1" (PyInt 100) (PyList [PyStr "10.0.0.1"]) [].

(** A collection whose only document lacks the field [h]. *)
Definition partition_without_hosts : list (gmap string pyval) :=
  [<["n" := PyStr "s1"]> {["w" := PyInt 100]}].

(** A shard with an option whose value has no option class, and queue
    [q] registered on it. *)
Definition shard_none_option : shard :=
  Shard "s3" 100 "mongodb://localhost:27017" {["replica_set" := PyNone]}.

Definition none_option_registered : state (env := example_env) :=
  (register 0 "q" None
     (@State example_env ∅ [shard_none_option] ∅ [] [])).1.

(** A shard whose storage type has no plugin installed. *)
Definition shard_redis : shard :=
  Shard "s2" 100 "redis://localhost:6379" ∅.

Definition redis_only : state (env := example_env) :=
  @State example_env ∅ [shard_redis] ∅ [] [].

(** A controller method that echoes the queue name. *)
Definition example_controller_call (d : driver) (ctrl name queue : string)
  (args : list pyval)
  (kwargs : option (option string) * list (string * pyval))
  (b : list string) : list string * (string + pyval) :=
  (b, inr (PyStr queue)).

(** Queue [orders] of project [acme] mapped to [s1], driver cached. *)
Definition acme_orders : state (env := example_env) :=
  (QueueController_create 0 "orders" (Some "acme") one_shard).1.

Definition acme_driver : driver :=
  match (lookup "orders" (Some "acme") acme_orders).2 with
  | inr (Some t) => t
  | _ => Driver 0 (Conf ∅ ∅ "" ∅)
  end.

(** Queue [q] registered on the shard without plugin. *)
Definition redis_registered : state (env := example_env) :=
  (register 0 "q" None redis_only).1.

(** * Properties *)

Section Properties.

Context {env : Environment}.

Implicit Types (s : state) (queue name : string) (project : option string).

(** ** [Catalog.lookup] case by case *)

Lemma lookup_unmapped queue project s :
  catalogue s !! (project, queue) = None ->
  lookup queue project s = (s, inr None).
Proof.
  intros Hnone.
  unfold lookup, bind, try_except, catalogue_get, get_state, bind.
  cbn. rewrite Hnone. reflexivity.
Qed.

Lemma lookup_cached queue project s shard_id d :
  catalogue s !! (project, queue) = Some shard_id ->
  drivers s !! shard_id = Some d ->
  lookup queue project s = (s, inr (Some d)).
Proof.
  intros Hmap Hcache.
  unfold lookup, bind, try_except, catalogue_get, get_state, bind.
  cbn. rewrite Hmap. cbn. rewrite Hcache. reflexivity.
Qed.

Lemma lookup_miss queue project s shard_id :
  catalogue s !! (project, queue) = Some shard_id ->
  drivers s !! shard_id = None ->
  lookup queue project s =
    match _init_driver shard_id s with
    | (s', inl e) => (s', inl e)
    | (s', inr d) =>
        (set_drivers (fun m => <[shard_id := d]> m) s', inr (Some d))
    end.
Proof.
  intros Hmap Hcache.
  unfold lookup, bind, try_except, catalogue_get, get_state, bind.
  cbn. rewrite Hmap. cbn. rewrite Hcache.
  destruct (_init_driver shard_id s) as [s' [e | d]]; reflexivity.
Qed.

(** [_init_driver] reads the shard store and may build a driver; it
    touches nothing else. *)
Lemma init_driver_absent shard_id s :
  find_shard shard_id (shards s) = None ->
  _init_driver shard_id s = (s, inl (NotFound shard_id)).
Proof.
  intros Habsent.
  unfold _init_driver, bind, shards_get, get_state, bind.
  cbn. rewrite Habsent. reflexivity.
Qed.

(** [dict_to_conf] fails exactly on a dict that holds a value without
    option class. *)
Lemma unconvertible_none (options : gmap string pyval) :
  unconvertible options = None <->
  forall k v, options !! k = Some v ->
    is_Some (pytype_to_cfgtype (type_name v)).
Proof.
  unfold unconvertible. split.
  - intros Hnone k v Hkv.
    pose proof (List.find_none _ _ Hnone (k, v)) as Hf.
    cbn in Hf.
    destruct (pytype_to_cfgtype (type_name v)); [ eauto | ].
    assert (true = false); [ | discriminate ].
    apply Hf, list_elem_of_In, elem_of_map_to_list, Hkv.
  - intros Hall.
    destruct (List.find _ (map_to_list options)) as [[k v] | ] eqn:Hfind;
      [ | reflexivity ].
    apply List.find_some in Hfind. destruct Hfind as [Hin Hv].
    apply list_elem_of_In, elem_of_map_to_list in Hin.
    destruct (Hall k v Hin) as [c Hc]. cbn in Hv. rewrite Hc in Hv.
    discriminate.
Qed.

Lemma unconvertible_some (options : gmap string pyval) kv :
  unconvertible options = Some kv ->
  options !! kv.1 = Some kv.2 /\
  pytype_to_cfgtype (type_name kv.2) = None.
Proof.
  unfold unconvertible. intros Hfind.
  apply List.find_some in Hfind. destruct Hfind as [Hin Hv].
  destruct kv as [k v].
  apply list_elem_of_In, elem_of_map_to_list in Hin.
  split; [ exact Hin | ].
  cbn in *. destruct (pytype_to_cfgtype (type_name v));
    [ discriminate | reflexivity ].
Qed.

Lemma conf_error_none sh : conf_error sh = None <-> convertible sh.
Proof.
  unfold conf_error, convertible, conf_value. split.
  - destruct (unconvertible {["dynamic" := PyBool true]}) eqn:H1;
      [ discriminate | ].
    destruct (unconvertible
                {["storage" := PyStr (urlparse_scheme (sh_uri sh))]})
      eqn:H2; [ discriminate | ].
    destruct (unconvertible
                (<["uri" := PyStr (sh_uri sh)]> (sh_options sh)))
      eqn:H3; [ discriminate | ].
    intros _ v [-> | [-> | [k Hk]]].
    + eapply (proj1 (unconvertible_none _) H1), lookup_singleton_eq.
    + eapply (proj1 (unconvertible_none _) H2), lookup_singleton_eq.
    + eapply (proj1 (unconvertible_none _) H3), Hk.
  - intros Hall.
    assert (H1 : unconvertible {["dynamic" := PyBool true]} = None).
    { apply unconvertible_none. intros k v Hkv.
      apply lookup_singleton_Some in Hkv. destruct Hkv as [_ <-].
      apply Hall. auto. }
    assert (H2 : unconvertible
                   {["storage" := PyStr (urlparse_scheme (sh_uri sh))]}
                 = None).
    { apply unconvertible_none. intros k v Hkv.
      apply lookup_singleton_Some in Hkv. destruct Hkv as [_ <-].
      apply Hall. auto. }
    assert (H3 : unconvertible
                   (<["uri" := PyStr (sh_uri sh)]> (sh_options sh))
                 = None).
    { apply unconvertible_none. intros k v Hkv. apply Hall. eauto. }
    rewrite H1, H2, H3. reflexivity.
Qed.

(** A failing conversion raises KeyError with the type of a value that
    has no option class. *)
Lemma conf_error_some sh e :
  conf_error sh = Some e ->
  exists v, conf_value sh v /\
    pytype_to_cfgtype (type_name v) = None /\ e = KeyError (type_name v).
Proof.
  unfold conf_error, conf_value.
  destruct (unconvertible {["dynamic" := PyBool true]}) as [kv | ] eqn:H1.
  { intros [= <-]. apply unconvertible_some in H1. destruct H1 as [Hkv Hv].
    apply lookup_singleton_Some in Hkv. destruct Hkv as [_ Heq].
    exists kv.2. split; [ rewrite <- Heq; auto | auto ]. }
  destruct (unconvertible
              {["storage" := PyStr (urlparse_scheme (sh_uri sh))]})
    as [kv | ] eqn:H2.
  { intros [= <-]. apply unconvertible_some in H2. destruct H2 as [Hkv Hv].
    apply lookup_singleton_Some in Hkv. destruct Hkv as [_ Heq].
    exists kv.2. split; [ rewrite <- Heq; auto | auto ]. }
  destruct (unconvertible
              (<["uri" := PyStr (sh_uri sh)]> (sh_options sh)))
    as [kv | ] eqn:H3; [ | discriminate ].
  intros [= <-]. apply unconvertible_some in H3. destruct H3 as [Hkv Hv].
  exists kv.2. eauto 6.
Qed.

(** [_init_driver] case by case: no record, a failing conversion, no
    plugin, or a new driver. *)
Lemma init_driver_cases shard_id s :
  _init_driver shard_id s =
    match find_shard shard_id (shards s) with
    | None => (s, inl (NotFound shard_id))
    | Some sh =>
        match conf_error sh with
        | Some e => (s, inl e)
        | None =>
            if driver_installed (urlparse_scheme (sh_uri sh)) then
              (set_constructed
                 (fun l =>
                    l ++ [Driver (length (constructed s)) (shard_conf sh)])
                 s,
               inr (Driver (length (constructed s)) (shard_conf sh)))
            else (s, inl (InvalidDriver (urlparse_scheme (sh_uri sh))))
        end
    end.
Proof.
  unfold _init_driver, bind, shards_get, get_state, bind, ret.
  destruct (find_shard shard_id (shards s)) as [sh | ]; [ | reflexivity ].
  unfold conf_error, dict_to_conf, raise, ret.
  destruct (unconvertible {["dynamic" := PyBool true]}); [ reflexivity | ].
  destruct (unconvertible
              {["storage" := PyStr (urlparse_scheme (sh_uri sh))]});
    [ reflexivity | ].
  destruct (unconvertible
              (<["uri" := PyStr (sh_uri sh)]> (sh_options sh)));
    [ reflexivity | ].
  unfold load_storage_driver. cbn [driver_opts].
  rewrite lookup_singleton_eq.
  destruct (driver_installed (urlparse_scheme (sh_uri sh))); reflexivity.
Qed.

Lemma init_driver_builds shard_id s sh :
  find_shard shard_id (shards s) = Some sh ->
  convertible sh ->
  driver_installed (urlparse_scheme (sh_uri sh)) = true ->
  exists d,
    drv_obj d = length (constructed s) /\
    _init_driver shard_id s =
      (set_constructed (fun l => (l ++ [d])%list) s, inr d).
Proof.
  intros Hfound Hconv Hplugin.
  rewrite init_driver_cases, Hfound.
  rewrite (proj2 (conf_error_none sh) Hconv), Hplugin.
  eexists. split; [ | reflexivity ]. reflexivity.
Qed.

Lemma init_driver_frame shard_id s :
  let s' := (_init_driver shard_id s).1 in
  catalogue s' = catalogue s /\ shards s' = shards s /\
  drivers s' = drivers s /\ storage s' = storage s.
Proof.
  rewrite init_driver_cases.
  destruct (find_shard shard_id (shards s)) as [sh | ]; cbn; [ | tauto ].
  destruct (conf_error sh); cbn; [ tauto | ].
  destruct (driver_installed _); cbn; tauto.
Qed.

Lemma lookup_catalogue queue project s :
  catalogue (lookup queue project s).1 = catalogue s.
Proof.
  destruct (catalogue s !! (project, queue)) as [shard_id | ] eqn:Hmap.
  - destruct (drivers s !! shard_id) as [d | ] eqn:Hcache.
    + rewrite (lookup_cached _ _ _ _ _ Hmap Hcache). reflexivity.
    + rewrite (lookup_miss _ _ _ _ Hmap Hcache).
      pose proof (init_driver_frame shard_id s) as (Hc & _).
      destruct (_init_driver shard_id s) as [s' [e | d]]; exact Hc.
  - rewrite (lookup_unmapped _ _ _ Hmap). reflexivity.
Qed.

(** A mapped queue never looks up to [None]: [lookup] returns a driver or
    raises. *)
Lemma lookup_mapped_not_none queue project s shard_id :
  catalogue s !! (project, queue) = Some shard_id ->
  (lookup queue project s).2 <> inr None.
Proof.
  intros Hmap.
  destruct (drivers s !! shard_id) as [d | ] eqn:Hcache.
  - rewrite (lookup_cached _ _ _ _ _ Hmap Hcache). discriminate.
  - rewrite (lookup_miss _ _ _ _ Hmap Hcache).
    destruct (_init_driver shard_id s) as [s' [e | d]]; discriminate.
Qed.

(** ** Unmapped queues *)

(** C1 (amended): for a queue without catalogue entry, [ClaimController]'s
    [create] returns the empty claim result [[None, []]], [get] and
    [update] raise ClaimDoesNotExist, and [delete] returns [None]; none of
    them changes the state. *)
Theorem ClaimController_unmapped queue project s claim_id metadata limit :
  catalogue s !! (project, queue) = None ->
  ClaimController_create queue metadata project limit s
    = (s, inr (PyList [PyNone; PyList []])) /\
  ClaimController_get queue claim_id project s
    = (s, inl (ClaimDoesNotExist claim_id queue project)) /\
  ClaimController_update queue claim_id metadata project s
    = (s, inl (ClaimDoesNotExist claim_id queue project)) /\
  ClaimController_delete queue claim_id project s = (s, inr PyNone).
Proof.
  intros Hnone.
  unfold ClaimController_create, ClaimController_get,
    ClaimController_update, ClaimController_delete, bind.
  rewrite (lookup_unmapped _ _ _ Hnone).
  repeat split.
Qed.

(** C6: for a queue without catalogue entry, [MessageController]'s [post]
    and [get] raise QueueDoesNotExist, [list] returns an iterator over one
    empty page, [delete] and [bulk_delete] return [None] and [bulk_get]
    returns the empty list; none of them changes the state. *)
Theorem MessageController_unmapped queue project s messages client_uuid
    message_id claim message_ids marker limit echo include_claimed :
  catalogue s !! (project, queue) = None ->
  MessageController_post queue project messages client_uuid s
    = (s, inl (QueueDoesNotExist (project_val project) (PyStr queue))) /\
  MessageController_get queue message_id project s
    = (s, inl (QueueDoesNotExist (project_val project) (PyStr queue))) /\
  MessageController_list queue project marker limit echo client_uuid
      include_claimed s
    = (s, inr (PyIter [PyList []])) /\
  MessageController_delete queue project message_id claim s
    = (s, inr PyNone) /\
  MessageController_bulk_delete queue project message_ids s
    = (s, inr PyNone) /\
  MessageController_bulk_get queue project message_ids s
    = (s, inr (PyList [])).
Proof.
  intros Hnone.
  unfold MessageController_post, MessageController_get,
    MessageController_list, MessageController_delete,
    MessageController_bulk_delete, MessageController_bulk_get, bind.
  rewrite (lookup_unmapped _ _ _ Hnone).
  repeat split.
Qed.

(** ** [Catalog.register] and [Catalog.deregister] *)

Lemma register_mapped rnd queue project s :
  is_Some (catalogue s !! (project, queue)) ->
  register rnd queue project s = (s, inr tt).
Proof.
  intros Hsome.
  unfold register, bind, catalogue_exists, get_state, bind, ret. cbn.
  rewrite bool_decide_eq_true_2 by exact Hsome. reflexivity.
Qed.

Lemma register_unmapped rnd queue project s :
  catalogue s !! (project, queue) = None ->
  register rnd queue project s =
    match weighted rnd (shards s) with
    | None => (s, inl NoShardFound)
    | Some sh =>
        (set_catalogue (fun c => <[(project, queue) := sh_name sh]> c) s,
         inr tt)
    end.
Proof.
  intros Hnone.
  unfold register, bind, catalogue_exists, get_state, bind, ret. cbn.
  rewrite bool_decide_eq_false_2
    by (rewrite Hnone; intros [x Hx]; discriminate).
  cbn. destruct (weighted rnd (shards s)); reflexivity.
Qed.

Lemma register_success_mapped rnd queue project s s1 :
  register rnd queue project s = (s1, inr tt) ->
  is_Some (catalogue s1 !! (project, queue)).
Proof.
  destruct (catalogue s !! (project, queue)) as [shard_id | ] eqn:Hmap.
  - rewrite register_mapped by eauto.
    intros [= <-]. eauto.
  - rewrite (register_unmapped _ _ _ _ Hmap).
    destruct (weighted rnd (shards s)) as [sh | ]; intros [= <-].
    cbn. rewrite lookup_insert_eq. eauto.
Qed.

(** C2: [register] is a no-op when (project, queue) has an entry: the
    state, and so the mapping, is unchanged whatever the random generator
    and the shard store hold, so no shard is selected and nothing is
    inserted.  In particular a second [register] after a first one that
    returned changes nothing. *)
Theorem register_idempotent queue project s :
  (is_Some (catalogue s !! (project, queue)) ->
   forall rnd, register rnd queue project s = (s, inr tt)) /\
  (forall rnd rnd' s1,
     register rnd queue project s = (s1, inr tt) ->
     register rnd' queue project s1 = (s1, inr tt)).
Proof.
  split.
  - intros Hsome rnd. apply register_mapped, Hsome.
  - intros rnd rnd' s1 Hfirst.
    apply register_mapped. eapply register_success_mapped, Hfirst.
Qed.

(** C3 (amended): when the shard store holds no shard and (project, queue)
    has no catalogue entry, [QueueController.create] fails with
    NoShardFound and leaves the whole state, and so the catalogue,
    unchanged. *)
Theorem create_no_shard rnd name project s :
  shards s = [] ->
  catalogue s !! (project, name) = None ->
  QueueController_create rnd name project s = (s, inl NoShardFound).
Proof.
  intros Hempty Hnone.
  unfold QueueController_create, bind.
  rewrite (register_unmapped _ _ _ _ Hnone), Hempty.
  reflexivity.
Qed.

(** C4: [deregister] never fails and deletes the entry of
    (project, queue) whether or not there is one; a [lookup] after it
    yields [None]; a second [deregister] returns too and changes
    nothing. *)
Theorem deregister_then_lookup queue project s :
  (deregister queue project s).2 = inr tt /\
  catalogue (deregister queue project s).1
    = delete (project, queue) (catalogue s) /\
  lookup queue project (deregister queue project s).1
    = ((deregister queue project s).1, inr None) /\
  deregister queue project (deregister queue project s).1
    = ((deregister queue project s).1, inr tt).
Proof.
  repeat split.
  - apply lookup_unmapped. cbn. apply lookup_delete_eq.
  - unfold deregister, catalogue_delete, modify, set_catalogue. cbn.
    rewrite delete_delete_eq. reflexivity.
Qed.

(** ** [QueueController.delete] *)

Lemma forward_catalogue t c s :
  catalogue (forward t c s).1 = catalogue s.
Proof.
  unfold forward.
  destruct (backend_call t c (storage s)) as [b [e | v]]; reflexivity.
Qed.


(** A mapped queue whose driver cannot be had: [delete] raises what
    [lookup] raised, with the catalogue as it was. *)
Lemma delete_lookup_raises name project s s1 e :
  lookup name project s = (s1, inl e) ->
  QueueController_delete name project s = (s1, inl e) /\
  catalogue s1 = catalogue s.
Proof.
  intros Hlookup. split.
  - unfold QueueController_delete, bind. rewrite Hlookup. reflexivity.
  - pose proof (lookup_catalogue name project s) as H.
    rewrite Hlookup in H. exact H.
Qed.

(** ** The driver cache and the shard store *)

Lemma find_shard_deleted shard_id (l : list shard) :
  find_shard shard_id (filter (fun sh => sh_name sh <> shard_id) l) = None.
Proof.
  induction l as [ | sh l IH]; [ reflexivity | ].
  rewrite filter_cons. destruct (decide (sh_name sh <> shard_id)) as [Hne | ].
  - cbn. rewrite bool_decide_eq_false_2 by exact Hne. exact IH.
  - exact IH.
Qed.

(** C8: let the queue be mapped to a shard whose record is then deleted
    from the shard store.  If a driver for the shard is cached, [lookup]
    returns that driver; if none is cached, [lookup] raises NotFound,
    from the read of the shard record in [_init_driver]. *)
Theorem lookup_after_shard_deleted queue project s shard_id :
  catalogue s !! (project, queue) = Some shard_id ->
  (shards_delete shard_id s).2 = inr tt /\
  (forall d, drivers s !! shard_id = Some d ->
     lookup queue project (shards_delete shard_id s).1
       = ((shards_delete shard_id s).1, inr (Some d))) /\
  (drivers s !! shard_id = None ->
     lookup queue project (shards_delete shard_id s).1
       = ((shards_delete shard_id s).1, inl (NotFound shard_id))).
Proof.
  intros Hmap. split; [ reflexivity | split ].
  - intros d Hcache. eapply lookup_cached; [ exact Hmap | exact Hcache ].
  - intros Hcache.
    rewrite (lookup_miss _ _ _ shard_id) by assumption.
    rewrite init_driver_absent; [ reflexivity | ].
    cbn. apply find_shard_deleted.
Qed.

(** ** The assertion in [QueueController.create] *)

(** What [lookup] raises comes from [_init_driver]: NotFound, the
    KeyError of a failing conversion, or InvalidDriver. *)
Lemma lookup_raises_kind queue project s s' e :
  lookup queue project s = (s', inl e) ->
  (exists shard_id, e = NotFound shard_id) \/
  (exists key, e = KeyError key) \/
  (exists storage_type, e = InvalidDriver storage_type).
Proof.
  destruct (catalogue s !! (project, queue)) as [shard_id | ] eqn:Hmap;
    [ | rewrite (lookup_unmapped _ _ _ Hmap); discriminate ].
  destruct (drivers s !! shard_id) as [d | ] eqn:Hcache;
    [ rewrite (lookup_cached _ _ _ _ _ Hmap Hcache); discriminate | ].
  rewrite (lookup_miss _ _ _ _ Hmap Hcache), init_driver_cases.
  destruct (find_shard shard_id (shards s)) as [sh | ];
    [ | intros [= <- <-]; eauto ].
  destruct (conf_error sh) as [ce | ] eqn:Hconf.
  - intros [= <- <-].
    destruct (conf_error_some _ _ Hconf) as (v & _ & _ & ->). eauto.
  - destruct (driver_installed (urlparse_scheme (sh_uri sh)));
      [ discriminate | ].
    intros [= <- <-]. eauto.
Qed.

(** C10: once [register] has returned, [create] goes on with the lookup
    and the assertion.  Run at once, that lookup does not yield [None], so
    the assertion holds whenever it is reached, and [create] raises no
    AssertionError.  If the entry is deregistered in between, the
    assertion fails: [create] raises AssertionError with the message
    [Failed to register queue]. *)
Theorem create_assertion rnd name project s s1 :
  register rnd name project s = (s1, inr tt) ->
  QueueController_create rnd name project s
    = QueueController_create_registered name project s1 /\
  (lookup name project s1).2 <> inr None /\
  QueueController_create_registered name project
      (deregister name project s1).1
    = ((deregister name project s1).1,
       inl (AssertionError "Failed to register queue")) /\
  (forall msg,
     (QueueController_create rnd name project s).2
       <> inl (AssertionError msg)).
Proof.
  intros Hreg.
  assert (Hcreate : QueueController_create rnd name project s
                    = QueueController_create_registered name project s1).
  { unfold QueueController_create, bind. rewrite Hreg. reflexivity. }
  destruct (register_success_mapped _ _ _ _ _ Hreg) as [shard_id Hmap].
  pose proof (lookup_mapped_not_none _ _ _ _ Hmap) as Hsome.
  split; [ exact Hcreate | split; [ exact Hsome | split ] ].
  - unfold QueueController_create_registered, bind.
    rewrite lookup_unmapped; [ reflexivity | ].
    cbn. apply lookup_delete_eq.
  - intros msg. rewrite Hcreate.
    unfold QueueController_create_registered, bind.
    destruct (lookup name project s1) as [s2 [e | [t | ]]] eqn:Hlookup.
    + cbn. intros [= ->].
      destruct (lookup_raises_kind _ _ _ _ _ Hlookup)
        as [[? ?] | [[? ?] | [? ?]]]; discriminate.
    + unfold forward.
      destruct (backend_call t (QueueCreate name project) (storage s2))
        as [b [eb | v]]; discriminate.
    + exfalso. apply Hsome. reflexivity.
Qed.

(** ** First use of the driver cache *)

(** A caller that runs its two pieces back to back does what [lookup]
    does. *)
Lemma run_threads_lookup schedule done rest queue project s :
  run_threads (length done :: length done :: schedule)
    (done ++ AtCatalogue queue project :: rest) s
  = run_threads schedule
      (done ++ Returned (lookup queue project s).2 :: rest)
      (lookup queue project s).1.
Proof.
  cbn [run_threads].
  rewrite list_lookup_middle by reflexivity.
  cbn [lookup_step].
  assert (Hins : forall x y : lookup_pc,
             <[length done := y]> (done ++ x :: rest) = done ++ y :: rest).
  { intros x y.
    rewrite insert_app_r_alt by lia.
    rewrite Nat.sub_diag. reflexivity. }
  destruct (catalogue s !! (project, queue)) as [shard_id | ] eqn:Hmap.
  - destruct (drivers s !! shard_id) as [d | ] eqn:Hcache.
    + rewrite (lookup_cached _ _ _ _ _ Hmap Hcache).
      rewrite Hins, list_lookup_middle by reflexivity.
      cbn [lookup_step]. rewrite Hins. reflexivity.
    + rewrite (lookup_miss _ _ _ _ Hmap Hcache).
      rewrite Hins, list_lookup_middle by reflexivity.
      cbn [lookup_step].
      destruct (_init_driver shard_id s) as [s' [e | d]];
        rewrite Hins; reflexivity.
  - rewrite (lookup_unmapped _ _ _ Hmap).
    rewrite Hins, list_lookup_middle by reflexivity.
    cbn [lookup_step]. rewrite Hins. reflexivity.
Qed.




End Properties.

(** ** [PartitionsController.update] *)

Section PartitionsUpdate.

Import Partitions.

Implicit Types (kwargs : list (string * pyval)) (fields d : gmap string pyval)
  (col : list (gmap string pyval)).

Lemma hosts_key : "hosts" ∈ ["hosts"; "weight"].
Proof. apply elem_of_cons. left. reflexivity. Qed.

Lemma weight_key : "weight" ∈ ["hosts"; "weight"].
Proof. apply elem_of_cons. right. apply elem_of_cons. left. reflexivity. Qed.

Lemma is_none_false v : is_none v = false <-> v <> PyNone.
Proof. destruct v; cbn; split; congruence. Qed.

Lemma first_char_inj key key' :
  key ∈ ["hosts"; "weight"] -> key' ∈ ["hosts"; "weight"] ->
  first_char key = first_char key' -> key = key'.
Proof.
  rewrite !elem_of_cons, !elem_of_nil.
  intros [-> | [-> | []]] [-> | [-> | []]]; cbn; congruence.
Qed.

Lemma turns_other kwargs : forall fields k,
  k <> "h" -> k <> "w" ->
  foldl set_field fields kwargs !! k = fields !! k.
Proof.
  induction kwargs as [ | [key v] kwargs IH]; intros fields k Hh Hw;
    [ reflexivity | ].
  cbn [foldl]. rewrite IH by assumption. unfold set_field. cbn [fst snd].
  destruct (bool_decide (key ∈ ["hosts"; "weight"])) eqn:Hkey;
    [ | reflexivity ].
  destruct (is_none v); [ reflexivity | ]. cbn [andb negb].
  apply bool_decide_eq_true_1 in Hkey.
  rewrite !elem_of_cons, elem_of_nil in Hkey.
  destruct Hkey as [-> | [-> | []]]; cbn;
    rewrite lookup_insert_ne by congruence; reflexivity.
Qed.

Lemma turns_sound kwargs key : forall fields v,
  key ∈ ["hosts"; "weight"] ->
  foldl set_field fields kwargs !! first_char key = Some v ->
  fields !! first_char key = Some v \/ ((key, v) ∈ kwargs /\ v <> PyNone).
Proof.
  induction kwargs as [ | [key' v'] kwargs IH]; intros fields v Hkey Hfold;
    [ left; exact Hfold | ].
  cbn [foldl] in Hfold.
  apply IH in Hfold; [ | exact Hkey ].
  unfold set_field in Hfold. cbn [fst snd] in Hfold.
  destruct Hfold as [Hacc | [Hin Hv]];
    [ | right; split; [ apply elem_of_cons; right; exact Hin | exact Hv ] ].
  destruct (bool_decide (key' ∈ ["hosts"; "weight"])) eqn:Hkey';
    [ | left; exact Hacc ].
  destruct (is_none v') eqn:Hnone; [ left; exact Hacc | ].
  cbn [andb negb] in Hacc.
  apply bool_decide_eq_true_1 in Hkey'.
  destruct (decide (first_char key' = first_char key)) as [Heq | Hne].
  - apply first_char_inj in Heq; [ | assumption | assumption ]. subst key'.
    rewrite lookup_insert_eq in Hacc. injection Hacc as <-.
    right. split; [ apply elem_of_cons; left; reflexivity | ].
    apply is_none_false, Hnone.
  - rewrite lookup_insert_ne in Hacc by exact Hne. left; exact Hacc.
Qed.

Lemma turns_keep kwargs key : forall fields,
  is_Some (fields !! first_char key) ->
  is_Some (foldl set_field fields kwargs !! first_char key).
Proof.
  induction kwargs as [ | [key' v'] kwargs IH]; intros fields Hsome;
    [ exact Hsome | ].
  cbn [foldl]. apply IH. unfold set_field. cbn [fst snd].
  destruct (bool_decide (key' ∈ ["hosts"; "weight"]) && negb (is_none v'));
    [ | exact Hsome ].
  destruct (decide (first_char key' = first_char key)) as [-> | Hne].
  - rewrite lookup_insert_eq. eauto.
  - rewrite lookup_insert_ne by exact Hne. exact Hsome.
Qed.

Lemma turns_complete kwargs key : forall fields,
  key ∈ ["hosts"; "weight"] ->
  supplied key kwargs ->
  is_Some (foldl set_field fields kwargs !! first_char key).
Proof.
  induction kwargs as [ | [key' v'] kwargs IH]; intros fields Hkey (v & Hin & Hv).
  - apply elem_of_nil in Hin. destruct Hin.
  - cbn [foldl]. apply elem_of_cons in Hin.
    destruct Hin as [[= <- <-] | Hin].
    + apply turns_keep. unfold set_field. cbn [fst snd].
      rewrite bool_decide_eq_true_2 by exact Hkey.
      apply is_none_false in Hv. rewrite Hv. cbn [andb negb].
      rewrite lookup_insert_eq. eauto.
    + apply IH; [ exact Hkey | ]. exists v. split; assumption.
Qed.

(** What the comprehension builds: field [h] (resp. [w]) is present
    exactly when [hosts] (resp. [weight]) is supplied, its value is one
    that was passed for it, and there is no other field. *)
Lemma update_fields_spec kwargs :
  (forall key, key ∈ ["hosts"; "weight"] ->
     (is_Some (update_fields kwargs !! first_char key)
        <-> supplied key kwargs) /\
     (forall v, update_fields kwargs !! first_char key = Some v ->
        (key, v) ∈ kwargs /\ v <> PyNone)) /\
  (forall k, k <> "h" -> k <> "w" -> update_fields kwargs !! k = None).
Proof.
  split.
  - intros key Hkey.
    assert (Hsound : forall v,
               update_fields kwargs !! first_char key = Some v ->
               (key, v) ∈ kwargs /\ v <> PyNone).
    { intros v Hv. apply turns_sound in Hv; [ | exact Hkey ].
      destruct Hv as [Hempty | Hv]; [ | exact Hv ].
      rewrite lookup_empty in Hempty. discriminate. }
    split; [ split | exact Hsound ].
    + intros [v Hv]. exists v. apply Hsound, Hv.
    + apply turns_complete, Hkey.
  - intros k Hh Hw. unfold update_fields.
    rewrite turns_other by assumption. apply lookup_empty.
Qed.

Lemma update_fields_empty kwargs :
  size (update_fields kwargs) = 0%nat <->
  ~ supplied "hosts" kwargs /\ ~ supplied "weight" kwargs.
Proof.
  destruct (update_fields_spec kwargs) as [Hkeys Hother].
  pose proof (Hkeys "hosts" hosts_key) as [Hh _].
  pose proof (Hkeys "weight" weight_key) as [Hw _].
  cbn [first_char] in Hh, Hw.
  rewrite map_size_empty_iff. split.
  - intros Hempty. rewrite Hempty in Hh, Hw.
    rewrite lookup_empty in Hh, Hw.
    split; intros Hs; [ apply Hh in Hs | apply Hw in Hs ];
      destruct Hs as [? Hs]; discriminate.
  - intros [Hnh Hnw]. apply map_empty. intros k.
    destruct (decide (k = "h")) as [-> | Hkh].
    + destruct (update_fields kwargs !! "h") eqn:E; [ | reflexivity ].
      exfalso. apply Hnh, Hh. eauto.
    + destruct (decide (k = "w")) as [-> | Hkw].
      * destruct (update_fields kwargs !! "w") eqn:E; [ | reflexivity ].
        exfalso. apply Hnw, Hw. eauto.
      * apply Hother; assumption.
Qed.

Lemma col_update_absent name fields col :
  (forall d, d ∈ col -> has_name name d = false) ->
  col_update name fields col = (col, false).
Proof.
  induction col as [ | d col IH]; intros Habsent; [ reflexivity | ].
  cbn [col_update].
  rewrite (Habsent d) by (apply elem_of_cons; left; reflexivity).
  rewrite IH; [ reflexivity | ].
  intros d' Hd'. apply Habsent, elem_of_cons. right; exact Hd'.
Qed.

Lemma col_update_first name fields before d after :
  (forall d', d' ∈ before -> has_name name d' = false) ->
  has_name name d = true ->
  col_update name fields (before ++ d :: after)
    = (before ++ (fields ∪ d) :: after, true).
Proof.
  intros Hbefore Hd.
  induction before as [ | d0 before IH]; cbn [app col_update].
  - rewrite Hd. reflexivity.
  - rewrite (Hbefore d0) by (apply elem_of_cons; left; reflexivity).
    rewrite IH; [ reflexivity | ].
    intros d' Hd'. apply Hbefore, elem_of_cons. right; exact Hd'.
Qed.

(** C7: [update] fails with the assertion (the argument error) when
    neither [hosts] nor [weight] is supplied; fails with PartitionNotFound
    when one is supplied and no record has the name; and otherwise
    succeeds: the first record with the name gets the fields built from
    the supplied arguments and keeps every other field, and the other
    records stay as they are.  A failing [update] leaves the collection
    unchanged. *)
Theorem update_cases name kwargs col :
  (~ supplied "hosts" kwargs -> ~ supplied "weight" kwargs ->
   update name kwargs col
     = (col, inl (AssertionError "`hosts` or `weight` not found in kwargs")))
  /\
  (supplied "hosts" kwargs \/ supplied "weight" kwargs ->
   (forall d, d ∈ col -> has_name name d = false) ->
   update name kwargs col = (col, inl (PartitionNotFound name)))
  /\
  (supplied "hosts" kwargs \/ supplied "weight" kwargs ->
   forall before d after,
     col = before ++ d :: after ->
     (forall d', d' ∈ before -> has_name name d' = false) ->
     has_name name d = true ->
     update name kwargs col
       = (before ++ (update_fields kwargs ∪ d) :: after, inr tt) /\
     (forall k, k <> "h" -> k <> "w" ->
        (update_fields kwargs ∪ d) !! k = d !! k) /\
     (forall key, key ∈ ["hosts"; "weight"] ->
        (~ supplied key kwargs ->
         (update_fields kwargs ∪ d) !! first_char key
           = d !! first_char key) /\
        (supplied key kwargs ->
         exists v, (key, v) ∈ kwargs /\ v <> PyNone /\
           (update_fields kwargs ∪ d) !! first_char key = Some v))).
Proof.
  pose proof (update_fields_empty kwargs) as Hempty.
  destruct (update_fields_spec kwargs) as [Hkeys Hother].
  assert (Hnonempty : supplied "hosts" kwargs \/ supplied "weight" kwargs ->
            Nat.eqb (size (update_fields kwargs)) 0 = false).
  { intros Hsup. apply Nat.eqb_neq. rewrite Hempty. tauto. }
  split; [ | split ].
  - intros Hnh Hnw. unfold update.
    replace (Nat.eqb (size (update_fields kwargs)) 0) with true;
      [ reflexivity | ].
    symmetry. apply Nat.eqb_eq, Hempty. tauto.
  - intros Hsup Habsent. unfold update.
    rewrite (Hnonempty Hsup), col_update_absent by exact Habsent.
    reflexivity.
  - intros Hsup before d after -> Hbefore Hd.
    split; [ | split ].
    + unfold update.
      rewrite (Hnonempty Hsup), col_update_first by assumption.
      reflexivity.
    + intros k Hh Hw. rewrite lookup_union_r; [ reflexivity | ].
      apply Hother; assumption.
    + intros key Hkey. destruct (Hkeys key Hkey) as [Hiff Hval]. split.
      * intros Hns. rewrite lookup_union_r; [ reflexivity | ].
        destruct (update_fields kwargs !! first_char key) eqn:E;
          [ | reflexivity ].
        exfalso. apply Hns, Hiff. eauto.
      * intros Hs. apply Hiff in Hs. destruct Hs as [v Hv].
        destruct (Hval v Hv) as [Hin Hne].
        exists v. split; [ exact Hin | split; [ exact Hne | ] ].
        apply lookup_union_Some_l, Hv.
Qed.

End PartitionsUpdate.

(** * The properties at concrete inputs *)

Lemma ClaimController_unmapped_witness :
  catalogue empty_state !! (None, "q") = None /\
  ClaimController_create "q" PyNone None (PyInt 5) empty_state
    = (empty_state, inr (PyList [PyNone; PyList []])) /\
  ClaimController_get "q" "c1" None empty_state
    = (empty_state, inl (ClaimDoesNotExist "c1" "q" None)) /\
  ClaimController_update "q" "c1" PyNone None empty_state
    = (empty_state, inl (ClaimDoesNotExist "c1" "q" None)) /\
  ClaimController_delete "q" "c1" None empty_state
    = (empty_state, inr PyNone).
Proof.
  split; [ reflexivity | ].
  apply (ClaimController_unmapped (env := example_env)
           "q" None empty_state "c1" PyNone (PyInt 5)).
  reflexivity.
Defined.

(** C1 as stated fails for [delete]: on a queue without catalogue entry it
    returns [None] and raises nothing. *)
Lemma ClaimController_delete_unmapped_returns :
  catalogue empty_state !! (None, "q") = None /\
  (ClaimController_delete "q" "c1" None empty_state).2 = inr PyNone /\
  (ClaimController_delete "q" "c1" None empty_state).2
    <> inl (ClaimDoesNotExist "c1" "q" None).
Proof.
  split; [ reflexivity | ].
  split; [ reflexivity | discriminate ].
Qed.

Lemma MessageController_unmapped_witness :
  catalogue empty_state !! (Some "7e55e1a7e", "nonexistent") = None /\
  MessageController_post "nonexistent" (Some "7e55e1a7e") (PyList []) PyNone
      empty_state
    = (empty_state,
       inl (QueueDoesNotExist (PyStr "7e55e1a7e") (PyStr "nonexistent"))) /\
  MessageController_list "nonexistent" (Some "7e55e1a7e") PyNone (PyInt 10)
      (PyBool false) PyNone (PyBool false) empty_state
    = (empty_state, inr (PyIter [PyList []])).
Proof.
  split; [ reflexivity | ].
  pose proof (MessageController_unmapped (env := example_env)
                "nonexistent" (Some "7e55e1a7e") empty_state (PyList [])
                PyNone "m1" PyNone (PyList []) PyNone (PyInt 10)
                (PyBool false) (PyBool false) eq_refl)
    as (Hpost & _ & Hlist & _).
  split; [ exact Hpost | exact Hlist ].
Defined.

Lemma register_idempotent_witness :
  is_Some (catalogue audit_created !! (None, "audit")) /\
  register 42 "audit" None audit_created = (audit_created, inr tt) /\
  register 7 "q" None (register 0 "q" None one_shard).1
    = ((register 0 "q" None one_shard).1, inr tt).
Proof.
  assert (Hsome : is_Some (catalogue audit_created !! (None, "audit"))).
  { exists "s1". vm_compute. reflexivity. }
  assert (Hfirst : register 0 "q" None one_shard
                   = ((register 0 "q" None one_shard).1, inr tt)).
  { vm_compute. reflexivity. }
  split; [ exact Hsome | split ].
  - exact (proj1 (register_idempotent (env := example_env)
                    "audit" None audit_created) Hsome 42).
  - exact (proj2 (register_idempotent (env := example_env)
                    "q" None one_shard) 0 7 _ Hfirst).
Defined.

Lemma create_no_shard_witness :
  shards empty_state = [] /\
  catalogue empty_state !! (None, "q") = None /\
  QueueController_create 0 "q" None empty_state
    = (empty_state, inl NoShardFound).
Proof.
  split; [ reflexivity | split; [ reflexivity | ] ].
  apply (create_no_shard (env := example_env) 0 "q" None empty_state);
    reflexivity.
Defined.

(** C3 as stated fails when the queue already has an entry: with the
    shard store empty, [create] on such a queue skips the selection,
    finds the cached driver and returns what the backend returns. *)
Lemma create_no_shard_mapped_returns :
  shards shard_gone = [] /\
  (QueueController_create 0 "q" None shard_gone).2 = inr PyNone /\
  (QueueController_create 0 "q" None shard_gone).2 <> inl NoShardFound.
Proof.
  split; [ reflexivity | ].
  split; [ vm_compute; reflexivity | vm_compute; discriminate ].
Qed.


Lemma lookup_after_shard_deleted_witness :
  catalogue orders_cached !! (None, "orders") = Some "s1" /\
  drivers orders_cached !! "s1" = Some orders_driver /\
  lookup "orders" None (shards_delete "s1" orders_cached).1
    = ((shards_delete "s1" orders_cached).1, inr (Some orders_driver)) /\
  drivers orders_mapped !! "s1" = None /\
  lookup "orders" None (shards_delete "s1" orders_mapped).1
    = ((shards_delete "s1" orders_mapped).1, inl (NotFound "s1")).
Proof.
  assert (Hmap : catalogue orders_cached !! (None, "orders") = Some "s1").
  { vm_compute. reflexivity. }
  assert (Hcache : drivers orders_cached !! "s1" = Some orders_driver).
  { vm_compute. reflexivity. }
  assert (Hmap' : catalogue orders_mapped !! (None, "orders") = Some "s1").
  { vm_compute. reflexivity. }
  assert (Hmiss : drivers orders_mapped !! "s1" = None).
  { vm_compute. reflexivity. }
  split; [ exact Hmap | split; [ exact Hcache | split ] ].
  - exact (proj1 (proj2 (lookup_after_shard_deleted (env := example_env)
                           "orders" None orders_cached "s1" Hmap))
             orders_driver Hcache).
  - split; [ exact Hmiss | ].
    exact (proj2 (proj2 (lookup_after_shard_deleted (env := example_env)
                           "orders" None orders_mapped "s1" Hmap'))
             Hmiss).
Defined.

Lemma create_assertion_witness :
  register 0 "q" None one_shard
    = ((register 0 "q" None one_shard).1, inr tt) /\
  (lookup "q" None (register 0 "q" None one_shard).1).2 <> inr None /\
  QueueController_create_registered "q" None
      (deregister "q" None (register 0 "q" None one_shard).1).1
    = ((deregister "q" None (register 0 "q" None one_shard).1).1,
       inl (AssertionError "Failed to register queue")) /\
  (QueueController_create 0 "q" None one_shard).2
    <> inl (AssertionError "Failed to register queue").
Proof.
  assert (Hreg : register 0 "q" None one_shard
                 = ((register 0 "q" None one_shard).1, inr tt)).
  { vm_compute. reflexivity. }
  split; [ exact Hreg | ].
  destruct (create_assertion (env := example_env)
              0 "q" None one_shard _ Hreg)
    as (_ & Hsome & Hfail & Hholds).
  split; [ exact Hsome | split; [ exact Hfail | apply Hholds ] ].
Defined.



Lemma update_cases_witness :
  Partitions.update "missing" [("weight", PyInt 5)] one_partition
    = (one_partition, inl (PartitionNotFound "missing")) /\
  Partitions.update "s1" [] one_partition
    = (one_partition,
       inl (AssertionError "`hosts` or `weight` not found in kwargs")) /\
  exists d,
    Partitions.update "s1" [("weight", PyInt 5); ("hosts", PyNone)]
        one_partition = ([d], inr tt) /\
    d !! "n" = Some (PyStr "s1") /\
    d !! "w" = Some (PyInt 5) /\
    d !! "h" = Some (PyList [PyStr "10.0.0.1"]).
Proof.
  assert (Hweight : forall rest,
             Partitions.supplied "weight" (("weight", PyInt 5) :: rest)).
  { intros rest. exists (PyInt 5).
    split; [ apply elem_of_cons; left; reflexivity | discriminate ]. }
  split; [ | split ].
  - apply (proj1 (proj2 (update_cases "missing" [("weight", PyInt 5)]
                           one_partition))).
    + right. apply Hweight.
    + intros d Hd. apply list_elem_of_singleton in Hd. subst d.
      vm_compute. reflexivity.
  - apply (proj1 (update_cases "s1" [] one_partition));
      intros (v & Hin & _); apply elem_of_nil in Hin; destruct Hin.
  - eexists. split.
    + apply (proj2 (proj2 (update_cases "s1"
                             [("weight", PyInt 5); ("hosts", PyNone)]
                             one_partition))
               (or_intror (Hweight _)) [] _ [] eq_refl).
      * intros d' Hd'. apply elem_of_nil in Hd'. destruct Hd'.
      * vm_compute. reflexivity.
    + vm_compute. repeat split.
Defined.

(** * Further properties of the routing layer *)

Section RoutingProperties.

Context {env : Environment}.

Implicit Types (s : state) (queue name : string) (project : option string).

(** ** [Catalog.lookup] in full *)

Lemma lookup_cases queue project s :
  lookup queue project s =
    match catalogue s !! (project, queue) with
    | None => (s, inr None)
    | Some shard_id =>
        match drivers s !! shard_id with
        | Some d => (s, inr (Some d))
        | None =>
            match find_shard shard_id (shards s) with
            | None => (s, inl (NotFound shard_id))
            | Some sh =>
                match conf_error sh with
                | Some e => (s, inl e)
                | None =>
                    if driver_installed (urlparse_scheme (sh_uri sh)) then
                      (with_driver shard_id
                         (Driver (length (constructed s)) (shard_conf sh))
                         s,
                       inr (Some (Driver (length (constructed s))
                                    (shard_conf sh))))
                    else
                      (s, inl (InvalidDriver
                                 (urlparse_scheme (sh_uri sh))))
                end
            end
        end
    end.
Proof.
  destruct (catalogue s !! (project, queue)) as [shard_id | ] eqn:Hmap;
    [ | apply lookup_unmapped, Hmap ].
  destruct (drivers s !! shard_id) as [d | ] eqn:Hcache;
    [ eapply lookup_cached; eassumption | ].
  rewrite (lookup_miss _ _ _ _ Hmap Hcache), init_driver_cases.
  destruct (find_shard shard_id (shards s)) as [sh | ]; [ | reflexivity ].
  destruct (conf_error sh); [ reflexivity | ].
  destruct (driver_installed (urlparse_scheme (sh_uri sh))); reflexivity.
Qed.

(** X1: for a queue without catalogue entry, [QueueController]'s [delete]
    returns [None], [exists] returns [False], and [get_metadata],
    [set_metadata] and [stats] raise QueueDoesNotExist(name, project);
    none of them changes the state, so no backend is called. *)
Theorem QueueController_unmapped name project s metadata :
  catalogue s !! (project, name) = None ->
  QueueController_delete name project s = (s, inr PyNone) /\
  QueueController_exists name project s = (s, inr (PyBool false)) /\
  QueueController_get_metadata name project s
    = (s, inl (QueueDoesNotExist (PyStr name) (project_val project))) /\
  QueueController_set_metadata name metadata project s
    = (s, inl (QueueDoesNotExist (PyStr name) (project_val project))) /\
  QueueController_stats name project s
    = (s, inl (QueueDoesNotExist (PyStr name) (project_val project))).
Proof.
  intros Hnone.
  unfold QueueController_delete, QueueController_exists,
    QueueController_get_metadata, QueueController_set_metadata,
    QueueController_stats, bind.
  rewrite (lookup_unmapped _ _ _ Hnone).
  repeat split.
Qed.

(** X2: when [lookup] raises, the state is exactly as before (nothing is
    cached), the queue is mapped to a shard without cached driver, and the
    error is NotFound for a shard without record; else the KeyError of
    [dict_to_conf], with the type of a value of the configuration that
    has no option class; else, when all values have one, InvalidDriver
    for a storage type without plugin. *)
Theorem lookup_raises_unchanged queue project s s' e :
  lookup queue project s = (s', inl e) ->
  s' = s /\
  exists shard_id,
    catalogue s !! (project, queue) = Some shard_id /\
    drivers s !! shard_id = None /\
    match find_shard shard_id (shards s) with
    | None => e = NotFound shard_id
    | Some sh =>
        (exists v, conf_value sh v /\
           pytype_to_cfgtype (type_name v) = None /\
           e = KeyError (type_name v)) \/
        (convertible sh /\
         driver_installed (urlparse_scheme (sh_uri sh)) = false /\
         e = InvalidDriver (urlparse_scheme (sh_uri sh)))
    end.
Proof.
  rewrite lookup_cases.
  destruct (catalogue s !! (project, queue)) as [shard_id | ];
    [ | discriminate ].
  destruct (drivers s !! shard_id) as [d | ] eqn:Hcache; [ discriminate | ].
  destruct (find_shard shard_id (shards s)) as [sh | ] eqn:Hfind.
  - destruct (conf_error sh) as [ce | ] eqn:Hconf.
    + intros [= <- <-]. split; [ reflexivity | ].
      exists shard_id. rewrite Hfind.
      split; [ reflexivity | split; [ exact Hcache | left ] ].
      apply conf_error_some, Hconf.
    + destruct (driver_installed (urlparse_scheme (sh_uri sh)))
        eqn:Hplugin; [ discriminate | ].
      intros [= <- <-]. split; [ reflexivity | ].
      exists shard_id. rewrite Hfind.
      split; [ reflexivity | split; [ exact Hcache | right ] ].
      split; [ apply conf_error_none, Hconf | auto ].
  - intros [= <- <-]. split; [ reflexivity | ].
    exists shard_id. rewrite Hfind. auto.
Qed.

(** X3: first use.  For a queue mapped to a shard that has a record
    whose configuration values all have an option class and an installed
    plugin, but no cached driver, [lookup] builds one driver from the
    record (the storage type is the scheme of the record's URI, and the
    record's URI replaces a [uri] among its options), stores it under the
    shard id, and returns it; the next [lookup] returns the same object
    and changes nothing.  When a value has no option class, [lookup]
    raises KeyError instead and builds and stores nothing. *)
Theorem lookup_first_use queue project s shard_id sh :
  catalogue s !! (project, queue) = Some shard_id ->
  drivers s !! shard_id = None ->
  find_shard shard_id (shards s) = Some sh ->
  (convertible sh ->
   driver_installed (urlparse_scheme (sh_uri sh)) = true ->
   let d := Driver (length (constructed s)) (shard_conf sh) in
   lookup queue project s = (with_driver shard_id d s, inr (Some d)) /\
   lookup queue project (with_driver shard_id d s)
     = (with_driver shard_id d s, inr (Some d)) /\
   storage_opts (drv_conf d) !! "uri" = Some (PyStr (sh_uri sh)) /\
   driver_opts (drv_conf d) !! "storage"
     = Some (PyStr (urlparse_scheme (sh_uri sh)))) /\
  (~ convertible sh ->
   exists v, conf_value sh v /\
     pytype_to_cfgtype (type_name v) = None /\
     lookup queue project s = (s, inl (KeyError (type_name v)))).
Proof.
  intros Hmap Hcache Hfind. split.
  - intros Hconv Hplugin d.
    split; [ | split; [ | split ] ].
    + rewrite lookup_cases, Hmap, Hcache, Hfind.
      rewrite (proj2 (conf_error_none sh) Hconv), Hplugin. reflexivity.
    + eapply lookup_cached; [ exact Hmap | ].
      cbn. apply lookup_insert_eq.
    + cbn. apply lookup_insert_eq.
    + cbn. apply lookup_singleton_eq.
  - intros Hnot.
    destruct (conf_error sh) as [ce | ] eqn:Hconf;
      [ | exfalso; apply Hnot, conf_error_none, Hconf ].
    destruct (conf_error_some _ _ Hconf) as (v & Hv & Hnone & ->).
    exists v. split; [ exact Hv | split; [ exact Hnone | ] ].
    rewrite lookup_cases, Hmap, Hcache, Hfind, Hconf. reflexivity.
Qed.

(** ** What a call may change *)

(** A relation between the state before and after that holds for every
    piece of a computation holds for the computation. *)
Lemma bind_keeps (P : state -> state -> Prop) {A B} (m : M A)
    (k : A -> M B) :
  (forall s1 s2 s3, P s1 s2 -> P s2 s3 -> P s1 s3) ->
  (forall s, P s (m s).1) ->
  (forall a s, P s (k a s).1) ->
  forall s, P s (bind m k s).1.
Proof.
  intros Htrans Hm Hk s. unfold bind.
  specialize (Hm s). destruct (m s) as [s1 [e | a]]; [ exact Hm | ].
  eapply Htrans; [ exact Hm | apply Hk ].
Qed.

Lemma cache_grows_refl s : cache_grows s s.
Proof. split; [ done | split; [ done | tauto ] ]. Qed.

Lemma cache_grows_trans s1 s2 s3 :
  cache_grows s1 s2 -> cache_grows s2 s3 -> cache_grows s1 s3.
Proof.
  intros (Hd & Hc & Hi) (Hd' & Hc' & Hi').
  split; [ etrans; eassumption | split; [ etrans; eassumption | tauto ] ].
Qed.

Lemma cache_grows_same s s' :
  drivers s' = drivers s -> constructed s' = constructed s ->
  cache_grows s s'.
Proof.
  intros Hd Hc. unfold cache_grows, cache_consistent.
  rewrite Hd, Hc. split; [ done | split; [ done | tauto ] ].
Qed.

Lemma lookup_cache_grows queue project s :
  cache_grows s (lookup queue project s).1.
Proof.
  rewrite lookup_cases.
  destruct (catalogue s !! (project, queue)) as [shard_id | ];
    [ | apply cache_grows_refl ].
  destruct (drivers s !! shard_id) as [d | ] eqn:Hcache;
    [ apply cache_grows_refl | ].
  destruct (find_shard shard_id (shards s)) as [sh | ];
    [ | apply cache_grows_refl ].
  destruct (conf_error sh); [ apply cache_grows_refl | ].
  destruct (driver_installed (urlparse_scheme (sh_uri sh)));
    [ | apply cache_grows_refl ].
  cbn. split; [ | split ].
  - apply insert_subseteq, Hcache.
  - apply prefix_app_r. reflexivity.
  - intros [Hsize Hbuilt]. split.
    + cbn. rewrite map_size_insert_None by exact Hcache.
      rewrite length_app, Hsize. cbn. lia.
    + cbn. intros shard_id' d'.
      rewrite lookup_insert. case_decide.
      * intros [= <-]. apply elem_of_app. right.
        apply list_elem_of_singleton. reflexivity.
      * intros Hd'. apply elem_of_app. left. eapply Hbuilt, Hd'.
Qed.

Lemma forward_cache_grows t c s : cache_grows s (forward t c s).1.
Proof.
  unfold forward.
  destruct (backend_call t c (storage s)) as [b [e | v]];
    apply cache_grows_same; reflexivity.
Qed.

Lemma register_cache_grows rnd queue project s :
  cache_grows s (register rnd queue project s).1.
Proof.
  destruct (catalogue s !! (project, queue)) eqn:Hmap.
  - rewrite register_mapped by eauto. apply cache_grows_refl.
  - rewrite (register_unmapped _ _ _ _ Hmap).
    destruct (weighted rnd (shards s));
      apply cache_grows_same; reflexivity.
Qed.

Ltac routed_keeps lookup_lemma forward_lemma refl_lemma trans_lemma :=
  apply (bind_keeps _ _ _ trans_lemma);
  [ intros ?; apply lookup_lemma
  | intros [? | ] ?; first [ apply forward_lemma | apply refl_lemma ] ].

Lemma dispatch_cache_grows rnd c s : cache_grows s (dispatch rnd c s).1.
Proof.
  revert s.
  destruct c; cbn [dispatch];
    try (routed_keeps lookup_cache_grows forward_cache_grows
           cache_grows_refl cache_grows_trans).
  - (* create *)
    apply (bind_keeps _ _ _ cache_grows_trans);
      [ intros ?; apply register_cache_grows | intros _ ].
    routed_keeps lookup_cache_grows forward_cache_grows
      cache_grows_refl cache_grows_trans.
  - (* delete *)
    apply (bind_keeps _ _ _ cache_grows_trans);
      [ intros ?; apply lookup_cache_grows | ].
    intros [t | ] s; [ | apply cache_grows_refl ].
    apply (bind_keeps _ _ _ cache_grows_trans);
      [ intros ?; apply forward_cache_grows | ].
    intros r s'.
    apply (bind_keeps _ _ _ cache_grows_trans);
      [ intros ?; apply cache_grows_same; reflexivity
      | intros ? ?; apply cache_grows_refl ].
Qed.

(** X4: whatever sequence of calls the controllers serve one after the
    other, the driver cache only grows (an entry is never dropped or
    replaced, a built driver never forgotten), and it stays consistent:
    from a state with as many cache entries as built drivers, such as a
    fresh [Catalog], there are never more built drivers than cached shard
    ids. *)
Theorem run_requests_cache reqs s :
  drivers s ⊆ drivers (run_requests reqs s) /\
  constructed s `prefix_of` constructed (run_requests reqs s) /\
  (cache_consistent s -> cache_consistent (run_requests reqs s)).
Proof.
  change (cache_grows s (run_requests reqs s)).
  revert s. induction reqs as [ | [rnd c] reqs IH]; intros s.
  - apply cache_grows_refl.
  - cbn. eapply cache_grows_trans; [ apply dispatch_cache_grows | apply IH ].
Qed.

(** ** [Catalog.register] and [QueueController.create] *)

Lemma lookup_raises_unchanged_aux queue project s s' e :
  lookup queue project s = (s', inl e) -> s' = s /\ e <> NoShardFound.
Proof.
  rewrite lookup_cases.
  destruct (catalogue s !! (project, queue)) as [shard_id | ];
    [ | discriminate ].
  destruct (drivers s !! shard_id) as [d | ]; [ discriminate | ].
  destruct (find_shard shard_id (shards s)) as [sh | ].
  - destruct (conf_error sh) as [ce | ] eqn:Hconf.
    + intros [= <- <-]. split; [ reflexivity | ].
      destruct (conf_error_some _ _ Hconf) as (v & _ & _ & ->).
      discriminate.
    + destruct (driver_installed (urlparse_scheme (sh_uri sh)));
        [ discriminate | ].
      intros [= <- <-]. split; [ reflexivity | discriminate ].
  - intros [= <- <-]. split; [ reflexivity | discriminate ].
Qed.

(** X5: [register] raises nothing but NoShardFound, and then leaves the
    state as it was; when it returns it has changed at most the catalogue
    entry of its own (project, queue), and that entry exists. *)
Theorem register_frame rnd queue project s :
  match register rnd queue project s with
  | (s1, inl e) => e = NoShardFound /\ s1 = s
  | (s1, inr _) =>
      is_Some (catalogue s1 !! (project, queue)) /\
      (forall k, k <> (project, queue) ->
         catalogue s1 !! k = catalogue s !! k) /\
      shards s1 = shards s /\ drivers s1 = drivers s /\
      constructed s1 = constructed s /\ storage s1 = storage s
  end.
Proof.
  destruct (catalogue s !! (project, queue)) eqn:Hmap.
  - rewrite register_mapped by eauto. rewrite Hmap. eauto 10.
  - rewrite (register_unmapped _ _ _ _ Hmap).
    destruct (weighted rnd (shards s)) as [sh | ]; [ | auto ].
    cbn. rewrite lookup_insert_eq.
    split; [ eauto | split; [ | auto ] ].
    intros k Hk. apply lookup_insert_ne. congruence.
Qed.

(** X6: [create] does not undo the registration.  When it raises anything
    but NoShardFound (the driver cannot be built, or the backend's create
    raises), the queue has a catalogue entry afterwards; when it raises
    NoShardFound the state is as before. *)
Theorem create_raises_registered rnd name project s s' e :
  QueueController_create rnd name project s = (s', inl e) ->
  (e = NoShardFound -> s' = s) /\
  (e <> NoShardFound -> is_Some (catalogue s' !! (project, name))).
Proof.
  unfold QueueController_create, bind.
  destruct (register rnd name project s) as [s1 [e1 | []]] eqn:Hreg.
  - destruct (catalogue s !! (project, name)) eqn:Hmap.
    + rewrite register_mapped in Hreg by eauto. discriminate.
    + rewrite (register_unmapped _ _ _ _ Hmap) in Hreg.
      destruct (weighted rnd (shards s)); [ discriminate | ].
      injection Hreg as <- <-. intros [= <- <-].
      split; [ auto | congruence ].
  - pose proof (register_success_mapped _ _ _ _ _ Hreg) as Hsome.
    unfold QueueController_create_registered, bind.
    pose proof (lookup_catalogue name project s1) as Hcat.
    destruct (lookup name project s1) as [s2 [e2 | [t | ]]] eqn:Hlookup;
      cbn [fst] in Hcat.
    + intros [= <- <-].
      apply lookup_raises_unchanged_aux in Hlookup.
      destruct Hlookup as [-> Hne]. split; [ congruence | auto ].
    + pose proof (forward_catalogue t (QueueCreate name project) s2) as Hfw.
      unfold forward in *.
      destruct (backend_call t (QueueCreate name project) (storage s2))
        as [b [eb | v]]; intros [= <- <-].
      split; [ discriminate | ].
      intros _. cbn [fst] in Hfw. rewrite Hfw, Hcat. exact Hsome.
    + intros [= <- <-]. split; [ discriminate | ].
      intros _. rewrite Hcat. exact Hsome.
Qed.

(** X7: [create] of a queue without entry, once the selector has picked
    a shard: the queue is mapped to that shard and the call goes to the
    shard's driver, the cached one if there is one, else one built from
    the shard's record and cached, when the record's configuration
    values all have an option class and the plugin is installed; what
    the backend's create returns or raises is the result.  When a value
    has no option class, [create] raises KeyError, with the queue
    registered and no driver built. *)
Theorem create_unmapped_routes rnd name project s sh :
  catalogue s !! (project, name) = None ->
  weighted rnd (shards s) = Some sh ->
  (forall d, drivers s !! sh_name sh = Some d ->
     QueueController_create rnd name project s
       = forward d (QueueCreate name project)
           (set_catalogue
              (fun c => <[(project, name) := sh_name sh]> c) s)) /\
  (forall sh',
     drivers s !! sh_name sh = None ->
     find_shard (sh_name sh) (shards s) = Some sh' ->
     (convertible sh' ->
      driver_installed (urlparse_scheme (sh_uri sh')) = true ->
      QueueController_create rnd name project s
        = forward (Driver (length (constructed s)) (shard_conf sh'))
            (QueueCreate name project)
            (with_driver (sh_name sh)
               (Driver (length (constructed s)) (shard_conf sh'))
               (set_catalogue
                  (fun c => <[(project, name) := sh_name sh]> c) s))) /\
     (~ convertible sh' ->
      exists v, conf_value sh' v /\
        pytype_to_cfgtype (type_name v) = None /\
        QueueController_create rnd name project s
          = (set_catalogue
               (fun c => <[(project, name) := sh_name sh]> c) s,
             inl (KeyError (type_name v))))).
Proof.
  intros Hnone Hpick.
  unfold QueueController_create, QueueController_create_registered, bind.
  rewrite (register_unmapped _ _ _ _ Hnone), Hpick.
  rewrite lookup_cases. cbn [catalogue set_catalogue drivers shards].
  rewrite lookup_insert_eq.
  split.
  - intros d Hcache. rewrite Hcache. reflexivity.
  - intros sh' Hcache Hfind. rewrite Hcache, Hfind. split.
    + intros Hconv Hplugin.
      rewrite (proj2 (conf_error_none sh') Hconv), Hplugin. reflexivity.
    + intros Hnot.
      destruct (conf_error sh') as [ce | ] eqn:Hconf;
        [ | exfalso; apply Hnot, conf_error_none, Hconf ].
      destruct (conf_error_some _ _ Hconf) as (v & Hv & Hnone' & ->).
      exists v. auto.
Qed.

(** ** [QueueController.delete] *)

Lemma lookup_none_unmapped queue project s s' :
  lookup queue project s = (s', inr None) ->
  s' = s /\ catalogue s !! (project, queue) = None.
Proof.
  rewrite lookup_cases.
  destruct (catalogue s !! (project, queue)) as [shard_id | ];
    [ | intros [= <-]; auto ].
  destruct (drivers s !! shard_id) as [d | ]; [ discriminate | ].
  destruct (find_shard shard_id (shards s)) as [sh | ]; [ | discriminate ].
  destruct (conf_error sh); [ discriminate | ].
  destruct (driver_installed (urlparse_scheme (sh_uri sh))); discriminate.
Qed.

(** X8: whenever [QueueController.delete] returns, the queue has no
    catalogue entry afterwards, the other entries are as before, and
    [exists] then answers [False] without a backend; whenever it raises,
    the catalogue is as before. *)
Theorem delete_outcome name project s s' r :
  QueueController_delete name project s = (s', r) ->
  match r with
  | inr v =>
      catalogue s' = delete (project, name) (catalogue s) /\
      QueueController_exists name project s' = (s', inr (PyBool false))
  | inl e => catalogue s' = catalogue s
  end.
Proof.
  unfold QueueController_delete, bind.
  pose proof (lookup_catalogue name project s) as Hcat.
  destruct (lookup name project s) as [s1 [e | [t | ]]] eqn:Hlookup;
    cbn [fst] in Hcat.
  - intros [= <- <-]. exact Hcat.
  - pose proof (forward_catalogue t (QueueDelete name project) s1) as Hfw.
    destruct (forward t (QueueDelete name project) s1) as [s2 [e | v]];
      cbn [fst] in Hfw; cbn; intros [= <- <-].
    + congruence.
    + cbn. rewrite Hfw, Hcat. split; [ reflexivity | ].
      unfold QueueController_exists, bind.
      rewrite lookup_unmapped; [ reflexivity | ].
      cbn. rewrite Hfw, Hcat. apply lookup_delete_eq.
  - apply lookup_none_unmapped in Hlookup. destruct Hlookup as [-> Hnone].
    intros [= <- <-]. split.
    + symmetry. apply delete_id, Hnone.
    + unfold QueueController_exists, bind.
      rewrite (lookup_unmapped _ _ _ Hnone). reflexivity.
Qed.

(** ** Transparency of the routing *)

(** X9: a call on a queue that is mapped to a shard with a cached driver
    is the same call on that driver's controller: the state changes as the
    backend changes it and the backend's value or error is the result.
    This holds for every method of the three controllers, [create]
    included; [delete] in addition deletes the catalogue entry when the
    backend returns. *)
Theorem dispatch_routes_to_owner rnd c s shard_id d :
  catalogue s !! (call_project c, call_queue c) = Some shard_id ->
  drivers s !! shard_id = Some d ->
  dispatch rnd c s =
    match c with
    | QueueDelete name project =>
        match forward d c s with
        | (s1, inl e) => (s1, inl e)
        | (s1, inr v) =>
            (set_catalogue (fun m => delete (project, name) m) s1, inr v)
        end
    | _ => forward d c s
    end.
Proof.
  intros Hmap Hcache.
  destruct c; cbn [call_project call_queue] in Hmap; cbn [dispatch];
    unfold QueueController_create, QueueController_create_registered,
      QueueController_delete, QueueController_exists,
      QueueController_get_metadata, QueueController_set_metadata,
      QueueController_stats, MessageController_post,
      MessageController_delete, MessageController_bulk_delete,
      MessageController_bulk_get, MessageController_list,
      MessageController_get, ClaimController_create, ClaimController_get,
      ClaimController_update, ClaimController_delete, bind;
    try rewrite register_mapped by eauto;
    rewrite (lookup_cached _ _ _ _ _ Hmap Hcache);
    reflexivity.
Qed.

(** ** The stores under the routing layer *)

Lemma lookup_shards queue project s :
  shards (lookup queue project s).1 = shards s.
Proof.
  rewrite lookup_cases.
  destruct (catalogue s !! (project, queue)) as [shard_id | ];
    [ | reflexivity ].
  destruct (drivers s !! shard_id); [ reflexivity | ].
  destruct (find_shard shard_id (shards s)) as [sh | ]; [ | reflexivity ].
  destruct (conf_error sh); [ reflexivity | ].
  destruct (driver_installed (urlparse_scheme (sh_uri sh))); reflexivity.
Qed.

Lemma forward_shards t c s : shards (forward t c s).1 = shards s.
Proof.
  unfold forward.
  destruct (backend_call t c (storage s)) as [b [e | v]]; reflexivity.
Qed.

Lemma register_shards rnd queue project s :
  shards (register rnd queue project s).1 = shards s.
Proof.
  destruct (catalogue s !! (project, queue)) eqn:Hmap.
  - rewrite register_mapped by eauto. reflexivity.
  - rewrite (register_unmapped _ _ _ _ Hmap).
    destruct (weighted rnd (shards s)); reflexivity.
Qed.

Lemma register_catalogue_other rnd queue project s k :
  k <> (project, queue) ->
  catalogue (register rnd queue project s).1 !! k = catalogue s !! k.
Proof.
  intros Hk.
  destruct (catalogue s !! (project, queue)) eqn:Hmap.
  - rewrite register_mapped by eauto. reflexivity.
  - rewrite (register_unmapped _ _ _ _ Hmap).
    destruct (weighted rnd (shards s)); [ | reflexivity ].
    cbn. apply lookup_insert_ne. congruence.
Qed.

Ltac routed_frame trans lookup_lemma forward_lemma :=
  apply (bind_keeps _ _ _ trans);
  [ intros ?; cbn beta; rewrite lookup_lemma; reflexivity
  | intros [? | ] ?; cbn beta;
    first [ rewrite forward_lemma; reflexivity | reflexivity ] ].

Lemma dispatch_shards rnd c s : shards (dispatch rnd c s).1 = shards s.
Proof.
  pose (P := fun s0 s1 : state => shards s1 = shards s0).
  assert (Htrans : forall s1 s2 s3, P s1 s2 -> P s2 s3 -> P s1 s3)
    by (unfold P; congruence).
  change (P s (dispatch rnd c s).1). revert s.
  destruct c; cbn [dispatch];
    try (subst P; routed_frame Htrans lookup_shards forward_shards).
  - apply (bind_keeps _ _ _ Htrans);
      [ intros ?; apply register_shards | intros _ ].
    subst P; routed_frame Htrans lookup_shards forward_shards.
  - apply (bind_keeps _ _ _ Htrans);
      [ intros ?; apply lookup_shards | ].
    intros [t | ] s; [ | reflexivity ].
    apply (bind_keeps _ _ _ Htrans);
      [ intros ?; apply forward_shards | ].
    intros r s'.
    apply (bind_keeps _ _ _ Htrans); intros; reflexivity.
Qed.

Lemma dispatch_catalogue_other rnd c s k :
  k <> (call_project c, call_queue c) ->
  catalogue (dispatch rnd c s).1 !! k = catalogue s !! k.
Proof.
  intros Hk.
  pose (P := fun s0 s1 : state => catalogue s1 !! k = catalogue s0 !! k).
  assert (Htrans : forall s1 s2 s3, P s1 s2 -> P s2 s3 -> P s1 s3)
    by (unfold P; congruence).
  change (P s (dispatch rnd c s).1). revert s.
  destruct c; cbn [dispatch call_project call_queue] in *;
    try (subst P; routed_frame Htrans lookup_catalogue forward_catalogue).
  - apply (bind_keeps _ _ _ Htrans);
      [ intros ?; apply register_catalogue_other, Hk | intros _ ].
    subst P; routed_frame Htrans lookup_catalogue forward_catalogue.
  - apply (bind_keeps _ _ _ Htrans);
      [ intros ?; unfold P; rewrite lookup_catalogue; reflexivity | ].
    intros [t | ] s; [ | reflexivity ].
    apply (bind_keeps _ _ _ Htrans);
      [ intros ?; unfold P; rewrite forward_catalogue; reflexivity | ].
    intros r s'.
    apply (bind_keeps _ _ _ Htrans); [ | intros; reflexivity ].
    intros s0. unfold P. cbn. apply lookup_delete_ne. congruence.
Qed.

Lemma dispatch_catalogue rnd c s :
  match c with
  | QueueCreate _ _ | QueueDelete _ _ => True
  | _ => catalogue (dispatch rnd c s).1 = catalogue s
  end.
Proof.
  pose (P := fun s0 s1 : state => catalogue s1 = catalogue s0).
  assert (Htrans : forall s1 s2 s3, P s1 s2 -> P s2 s3 -> P s1 s3)
    by (unfold P; congruence).
  destruct c; try exact I; cbn [dispatch];
    match goal with
    | |- catalogue (?f s).1 = catalogue s =>
        change (P s (f s).1); revert s
    end;
    subst P; routed_frame Htrans lookup_catalogue forward_catalogue.
Qed.

(** X10: no call changes the shard store; a call changes no catalogue
    entry but that of its own (project, queue); and only
    [QueueController]'s [create] and [delete] change the catalogue at
    all. *)
Theorem dispatch_stores rnd c s :
  shards (dispatch rnd c s).1 = shards s /\
  (forall k, k <> (call_project c, call_queue c) ->
     catalogue (dispatch rnd c s).1 !! k = catalogue s !! k) /\
  match c with
  | QueueCreate _ _ | QueueDelete _ _ => True
  | _ => catalogue (dispatch rnd c s).1 = catalogue s
  end.
Proof.
  split; [ apply dispatch_shards | split ].
  - intros k Hk. apply dispatch_catalogue_other, Hk.
  - apply dispatch_catalogue.
Qed.

End RoutingProperties.

(** ** [RoutingController.__getattr__] *)

Section GenericForward.

Context {env : Environment}.

Variable controller_call :
  driver -> string -> string -> string -> list pyval ->
  option (option string) * list (string * pyval) ->
  backend -> backend * (string + pyval).

(** X11: the generic forwarder looks the queue up under the [project]
    keyword argument, and under the global project when [project] is not
    passed by keyword, whatever the positional arguments hold.  For a
    queue without entry there it raises AttributeError (the controller
    attribute of [None]) and calls no backend; for a queue mapped to a
    shard with cached driver it calls the same-named method of that
    driver's controller and passes its value or error through. *)
Theorem forward_generic _resource_name name queue args kwargs s :
  (catalogue s !! (kwargs_get_project kwargs, queue) = None ->
   RoutingController_forward controller_call _resource_name name queue
       args kwargs s
     = (s, inl (AttributeError "NoneType"
                  (String.append _resource_name "_controller")))) /\
  (forall shard_id d,
     catalogue s !! (kwargs_get_project kwargs, queue) = Some shard_id ->
     drivers s !! shard_id = Some d ->
     RoutingController_forward controller_call _resource_name name queue
         args kwargs s
       = match controller_call d
                 (String.append _resource_name "_controller") name queue
                 args kwargs (storage s) with
         | (b, inl e) =>
             (set_storage (fun _ => b) s, inl (Raised (BackendError e)))
         | (b, inr v) => (set_storage (fun _ => b) s, inr v)
         end) /\
  (kwargs.1 = None ->
   catalogue s !! (None, queue) = None ->
   RoutingController_forward controller_call _resource_name name queue
       args kwargs s
     = (s, inl (AttributeError "NoneType"
                  (String.append _resource_name "_controller")))).
Proof.
  split; [ | split ].
  - intros Hnone. unfold RoutingController_forward.
    rewrite (lookup_unmapped _ _ _ Hnone). reflexivity.
  - intros shard_id d Hmap Hcache. unfold RoutingController_forward.
    rewrite (lookup_cached _ _ _ _ _ Hmap Hcache). reflexivity.
  - intros Hkw Hnone. unfold RoutingController_forward, kwargs_get_project.
    rewrite Hkw, (lookup_unmapped _ _ _ Hnone). reflexivity.
Qed.

End GenericForward.

(** * The further properties at concrete inputs *)

Lemma QueueController_unmapped_witness :
  catalogue empty_state !! (Some "acme", "q") = None /\
  QueueController_exists "q" (Some "acme") empty_state
    = (empty_state, inr (PyBool false)) /\
  QueueController_stats "q" (Some "acme") empty_state
    = (empty_state, inl (QueueDoesNotExist (PyStr "q") (PyStr "acme"))).
Proof.
  split; [ reflexivity | ].
  pose proof (QueueController_unmapped (env := example_env)
                "q" (Some "acme") empty_state PyNone eq_refl)
    as (_ & Hexists & _ & _ & Hstats).
  split; [ exact Hexists | exact Hstats ].
Defined.

Lemma lookup_raises_unchanged_witness :
  lookup "q" None redis_registered
    = (redis_registered, inl (InvalidDriver "redis")) /\
  drivers redis_registered !! "s2" = None /\
  lookup "q" None none_option_registered
    = (none_option_registered, inl (KeyError "NoneType")) /\
  drivers none_option_registered !! "s3" = None.
Proof.
  assert (Hraise : lookup "q" None redis_registered
                   = (redis_registered, inl (InvalidDriver "redis"))).
  { vm_compute. reflexivity. }
  assert (Hkey : lookup "q" None none_option_registered
                 = (none_option_registered, inl (KeyError "NoneType"))).
  { vm_compute. reflexivity. }
  split; [ exact Hraise | split; [ | split; [ exact Hkey | ] ] ].
  - destruct (lookup_raises_unchanged (env := example_env)
                "q" None redis_registered _ _ Hraise)
      as (_ & shard_id & Hmap & Hmiss & _).
    assert (Hs2 : catalogue redis_registered !! (None, "q") = Some "s2").
    { vm_compute. reflexivity. }
    rewrite Hmap in Hs2. injection Hs2 as ->. exact Hmiss.
  - destruct (lookup_raises_unchanged (env := example_env)
                "q" None none_option_registered _ _ Hkey)
      as (_ & shard_id & Hmap & Hmiss & _).
    assert (Hs3 : catalogue none_option_registered !! (None, "q")
                  = Some "s3").
    { vm_compute. reflexivity. }
    rewrite Hmap in Hs3. injection Hs3 as ->. exact Hmiss.
Defined.

Lemma lookup_first_use_witness :
  lookup "orders" None orders_mapped
    = (with_driver "s1"
         (Driver 0 (shard_conf (env := example_env) shard_s1))
         orders_mapped,
       inr (Some (Driver 0 (shard_conf (env := example_env) shard_s1))))
  /\
  exists v,
    pytype_to_cfgtype (Environment := example_env) (type_name v) = None /\
    lookup "q" None none_option_registered
      = (none_option_registered, inl (KeyError (type_name v))).
Proof.
  split.
  - apply (proj1 (lookup_first_use (env := example_env)
                    "orders" None orders_mapped "s1" shard_s1
                    eq_refl eq_refl eq_refl)).
    + apply conf_error_none. vm_compute. reflexivity.
    + vm_compute. reflexivity.
  - assert (Hmap : catalogue none_option_registered !! (None, "q")
                   = Some "s3").
    { vm_compute. reflexivity. }
    destruct (proj2 (lookup_first_use (env := example_env)
                       "q" None none_option_registered "s3"
                       shard_none_option Hmap eq_refl eq_refl))
      as (v & _ & Hnone & Hraise).
    + intros Hconv. apply conf_error_none in Hconv.
      vm_compute in Hconv. discriminate.
    + exists v. split; [ exact Hnone | exact Hraise ].
Defined.

Lemma run_requests_cache_witness :
  cache_consistent one_shard /\
  cache_consistent
    (run_requests
       [(0, QueueCreate "q" None);
        (0, MessagePost "q" None (PyList []) PyNone);
        (7, QueueCreate "audit" None);
        (0, QueueDelete "q" None)]
       one_shard).
Proof.
  assert (Hfresh : cache_consistent one_shard).
  { split; [ reflexivity | ].
    intros shard_id d Hd. cbn in Hd. rewrite lookup_empty in Hd.
    discriminate. }
  split; [ exact Hfresh | ].
  exact (proj2 (proj2 (run_requests_cache (env := example_env) _ one_shard))
           Hfresh).
Defined.

Lemma create_raises_registered_witness :
  QueueController_create 0 "q" None redis_only
    = (redis_registered, inl (InvalidDriver "redis")) /\
  is_Some (catalogue redis_registered !! (None, "q")).
Proof.
  assert (Hraise : QueueController_create 0 "q" None redis_only
                   = (redis_registered, inl (InvalidDriver "redis"))).
  { vm_compute. reflexivity. }
  split; [ exact Hraise | ].
  apply (proj2 (create_raises_registered (env := example_env)
                  0 "q" None redis_only _ _ Hraise)).
  discriminate.
Defined.

Lemma create_unmapped_routes_witness :
  catalogue one_shard !! (None, "q") = None /\
  weighted 0 (shards one_shard) = Some shard_s1 /\
  QueueController_create 0 "q" None one_shard
    = forward (Driver 0 (shard_conf (env := example_env) shard_s1))
        (QueueCreate "q" None)
        (with_driver "s1"
           (Driver 0 (shard_conf (env := example_env) shard_s1))
           (set_catalogue (fun c => <[(None, "q") := "s1"]> c) one_shard)).
Proof.
  assert (Hnone : catalogue one_shard !! (None, "q") = None)
    by reflexivity.
  assert (Hpick : weighted 0 (shards one_shard) = Some shard_s1)
    by reflexivity.
  split; [ exact Hnone | split; [ exact Hpick | ] ].
  apply (proj1 (proj2 (create_unmapped_routes (env := example_env)
                         0 "q" None one_shard shard_s1 Hnone Hpick)
                  shard_s1 eq_refl eq_refl)).
  - apply conf_error_none. vm_compute. reflexivity.
  - vm_compute. reflexivity.
Defined.

Lemma delete_outcome_witness :
  (QueueController_delete "orders" (Some "acme") acme_orders).2
    = inr PyNone /\
  catalogue (QueueController_delete "orders" (Some "acme") acme_orders).1
    = delete (Some "acme", "orders") (catalogue acme_orders) /\
  (QueueController_delete "audit" None audit_created).2
    = inl (BackendError "ConnectionError") /\
  catalogue (QueueController_delete "audit" None audit_created).1
    = catalogue audit_created.
Proof.
  assert (Hret : QueueController_delete "orders" (Some "acme") acme_orders
                 = ((QueueController_delete "orders" (Some "acme")
                       acme_orders).1, inr PyNone)).
  { vm_compute. reflexivity. }
  assert (Hraise : QueueController_delete "audit" None audit_created
                   = ((QueueController_delete "audit" None
                         audit_created).1,
                      inl (BackendError "ConnectionError"))).
  { vm_compute. reflexivity. }
  split; [ rewrite Hret; reflexivity | split ].
  - exact (proj1 (delete_outcome (env := example_env) _ _ _ _ _ Hret)).
  - split; [ rewrite Hraise; reflexivity | ].
    exact (delete_outcome (env := example_env) _ _ _ _ _ Hraise).
Defined.

Lemma dispatch_routes_to_owner_witness :
  catalogue acme_orders !! (Some "acme", "orders") = Some "s1" /\
  drivers acme_orders !! "s1" = Some acme_driver /\
  dispatch 0 (MessagePost "orders" (Some "acme") (PyList []) PyNone)
      acme_orders
    = forward acme_driver
        (MessagePost "orders" (Some "acme") (PyList []) PyNone)
        acme_orders.
Proof.
  assert (Hmap : catalogue acme_orders !! (Some "acme", "orders")
                 = Some "s1").
  { vm_compute. reflexivity. }
  assert (Hcache : drivers acme_orders !! "s1" = Some acme_driver).
  { vm_compute. reflexivity. }
  split; [ exact Hmap | split; [ exact Hcache | ] ].
  exact (dispatch_routes_to_owner (env := example_env) 0
           (MessagePost "orders" (Some "acme") (PyList []) PyNone)
           acme_orders "s1" acme_driver Hmap Hcache).
Defined.

Lemma forward_generic_witness :
  RoutingController_forward (env := example_env)
      example_controller_call "message" "first"
      "orders" [PyStr "acme"] (None, []) acme_orders
    = (acme_orders, inl (AttributeError "NoneType" "message_controller")) /\
  (RoutingController_forward (env := example_env)
      example_controller_call "message" "first"
      "orders" [] (Some (Some "acme"), []) acme_orders).2
    = inr (PyStr "orders").
Proof.
  pose proof (forward_generic (env := example_env) example_controller_call
                "message" "first" "orders" [PyStr "acme"] (None, [])
                acme_orders) as (_ & _ & Hpositional).
  split.
  - apply Hpositional; [ reflexivity | vm_compute; reflexivity ].
  - pose proof (forward_generic (env := example_env)
                  example_controller_call "message" "first" "orders" []
                  (Some (Some "acme"), []) acme_orders)
      as (_ & Hmapped & _).
    rewrite (Hmapped "s1" acme_driver); [ reflexivity | | ];
      vm_compute; reflexivity.
Defined.

(** * Further properties of [PartitionsController] *)

Section PartitionsStore.

Import Partitions.

Implicit Types (kwargs : list (string * pyval)) (fields d : gmap string pyval)
  (col : list (gmap string pyval)).

Lemma has_name_union name fields d :
  has_name name (fields ∪ d) =
    match fields !! "n" with
    | Some (PyStr n) => String.eqb n name
    | Some _ => false
    | None => has_name name d
    end.
Proof.
  unfold has_name. rewrite lookup_union.
  destruct (fields !! "n") as [v | ] eqn:Hn.
  - destruct (d !! "n"); reflexivity.
  - destruct (d !! "n"); reflexivity.
Qed.

Lemma has_name_inj name name' d :
  has_name name d = true -> has_name name' d = true -> name = name'.
Proof.
  unfold has_name. destruct (d !! "n") as [[ | | | n | | ] | ];
    try discriminate.
  intros H1%String.eqb_eq H2%String.eqb_eq. congruence.
Qed.

Lemma find_app_none {A} (f : A -> bool) (l : list A) x :
  List.find f l = None -> List.find f (l ++ [x]) = List.find f [x].
Proof.
  induction l as [ | y l IH]; [ reflexivity | ].
  cbn. destruct (f y); [ discriminate | exact IH ].
Qed.

(** What [col_update] does to the first document with the name, when
    setting the fields keeps the name. *)
Lemma col_update_find name fields col :
  (forall d, has_name name d = true -> has_name name (fields ∪ d) = true) ->
  match List.find (has_name name) col with
  | Some d =>
      (col_update name fields col).2 = true /\
      List.find (has_name name) (col_update name fields col).1
        = Some (fields ∪ d)
  | None => col_update name fields col = (col, false)
  end.
Proof.
  intros Hkeep.
  induction col as [ | d0 col IH]; [ reflexivity | ].
  cbn [List.find col_update].
  destruct (has_name name d0) eqn:Hd0.
  - cbn. rewrite (Hkeep d0 Hd0). auto.
  - destruct (List.find (has_name name) col) as [d | ].
    + destruct IH as [Hflag Hfind].
      destruct (col_update name fields col) as [col' b]. cbn in *.
      rewrite Hd0. auto.
    + rewrite IH. reflexivity.
Qed.

(** Setting fields that keep every document's name keeps the number of
    documents of each name, and the number of documents. *)
Lemma col_update_count name fields col name' :
  (forall d, has_name name d = true ->
     has_name name' (fields ∪ d) = has_name name' d) ->
  count name' (col_update name fields col).1 = count name' col /\
  length (col_update name fields col).1 = length col.
Proof.
  intros Hkeep. unfold count.
  induction col as [ | d0 col IH]; [ auto | ].
  cbn [col_update].
  destruct (has_name name d0) eqn:Hd0.
  - cbn. rewrite (Hkeep d0 Hd0).
    destruct (has_name name' d0); auto.
  - destruct IH as [IHc IHl].
    destruct (col_update name fields col) as [col' b]. cbn in *.
    destruct (has_name name' d0); cbn; auto.
Qed.

Lemma count_find name col :
  count name col = 0%nat <-> List.find (has_name name) col = None.
Proof.
  unfold count. induction col as [ | d col IH]; [ tauto | ].
  cbn. destruct (has_name name d); cbn; [ | exact IH ].
  split; discriminate.
Qed.

Lemma create_fields_name name name' weight hosts d :
  has_name name'
    ((<["n" := PyStr name]> (<["w" := weight]> {["h" := hosts]})) ∪ d)
  = String.eqb name name'.
Proof.
  rewrite has_name_union, lookup_insert_eq. reflexivity.
Qed.

(** X12: [create] then [get].  Whatever the collection held, after
    [create(name, weight, hosts)], [get(name)] returns the record with
    that name, weight and hosts, and [exists(name)] is true. *)
Theorem create_get name weight hosts col :
  get name (create name weight hosts col)
    = inr (<["name" := PyStr name]>
             (<["hosts" := hosts]> {["weight" := weight]})) /\
  exists_ name (create name weight hosts col) = true.
Proof.
  set (fields := <["n" := PyStr name]> (<["w" := weight]> {["h" := hosts]})
         : gmap string pyval).
  assert (Hnorm : forall d,
             _normalize (fields ∪ d)
             = inr (<["name" := PyStr name]>
                      (<["hosts" := hosts]> {["weight" := weight]}))).
  { intros d. unfold _normalize.
    rewrite (lookup_union_Some_l fields d "n" (PyStr name))
      by apply lookup_insert_eq.
    rewrite (lookup_union_Some_l fields d "h" hosts)
      by (unfold fields; rewrite !lookup_insert_ne by discriminate;
          apply lookup_singleton_eq).
    rewrite (lookup_union_Some_l fields d "w" weight)
      by (unfold fields; rewrite lookup_insert_ne by discriminate;
          apply lookup_insert_eq).
    reflexivity. }
  assert (Hfind : exists d,
             List.find (has_name name) (create name weight hosts col)
             = Some (fields ∪ d)).
  { unfold create. fold fields.
    pose proof (col_update_find name fields col) as Hupd.
    destruct (List.find (has_name name) col) as [d | ] eqn:Hcol.
    - destruct Hupd as [Hflag Hfound].
      { intros d' _. unfold fields. rewrite create_fields_name.
        apply String.eqb_refl. }
      destruct (col_update name fields col) as [col' b]. cbn in *.
      subst b. exists d. exact Hfound.
    - rewrite Hupd.
      2:{ intros d' _. unfold fields. rewrite create_fields_name.
          apply String.eqb_refl. }
      exists ∅. rewrite (find_app_none _ _ _ Hcol). cbn.
      replace (has_name name fields) with true.
      + rewrite (right_id_L ∅ (∪)). reflexivity.
      + symmetry. unfold has_name, fields. rewrite lookup_insert_eq.
        apply String.eqb_refl. }
  destruct Hfind as [d Hfind].
  unfold get, exists_. rewrite Hfind, Hnorm. auto.
Qed.

(** X13: [create] is an upsert.  It leaves one more document with the
    name when there was none and the same number otherwise, and it leaves
    the number of documents of every other name as it was: a collection
    with one document per name stays so. *)
Theorem create_count name weight hosts col name' :
  count name' (create name weight hosts col)
  = if String.eqb name name' then Nat.max 1 (count name col)
    else count name' col.
Proof.
  set (fields := <["n" := PyStr name]> (<["w" := weight]> {["h" := hosts]})
         : gmap string pyval).
  assert (Hkeep : forall d, has_name name d = true ->
             has_name name' (fields ∪ d) = has_name name' d).
  { intros d Hd. unfold fields. rewrite create_fields_name.
    destruct (String.eqb name name') eqn:Heq.
    - apply String.eqb_eq in Heq. subst name'. symmetry. exact Hd.
    - destruct (has_name name' d) eqn:Hd'; [ | reflexivity ].
      pose proof (has_name_inj _ _ _ Hd Hd') as ->.
      rewrite String.eqb_refl in Heq. discriminate. }
  destruct (col_update_count name fields col name' Hkeep) as [Hcount _].
  unfold create. fold fields.
  pose proof (col_update_find name fields col) as Hupd.
  pose proof (count_find name col) as Hzero.
  destruct (List.find (has_name name) col) as [d | ] eqn:Hcol.
  - destruct Hupd as [Hflag _].
    { intros d' _. unfold fields. rewrite create_fields_name.
      apply String.eqb_refl. }
    destruct (col_update name fields col) as [col' b].
    cbn [fst snd] in *. subst b.
    rewrite Hcount.
    destruct (String.eqb name name') eqn:Heq; [ | reflexivity ].
    apply String.eqb_eq in Heq. subst name'.
    destruct (count name col); [ | reflexivity ].
    destruct Hzero as [Hzero _]. specialize (Hzero eq_refl). discriminate.
  - rewrite Hupd.
    2:{ intros d' _. unfold fields. rewrite create_fields_name.
        apply String.eqb_refl. }
    unfold count. rewrite List.filter_app, length_app. cbn.
    replace (has_name name' fields) with (String.eqb name name').
    + destruct (String.eqb name name') eqn:Heq; cbn.
      * apply String.eqb_eq in Heq. subst name'.
        destruct Hzero as [_ Hzero]. specialize (Hzero eq_refl).
        unfold count in Hzero. rewrite Hzero. reflexivity.
      * lia.
    + unfold has_name, fields. rewrite lookup_insert_eq. reflexivity.
Qed.

Lemma find_delete_other name name' col :
  name' <> name ->
  List.find (has_name name') (delete name col)
  = List.find (has_name name') col.
Proof.
  intros Hne. unfold delete.
  induction col as [ | d col IH]; [ reflexivity | ].
  cbn. destruct (has_name name d) eqn:Hd; cbn.
  - destruct (has_name name' d) eqn:Hd'; [ | exact IH ].
    exfalso. apply Hne. eapply has_name_inj; eassumption.
  - destruct (has_name name' d); [ reflexivity | exact IH ].
Qed.

Lemma find_delete_same name col :
  List.find (has_name name) (delete name col) = None.
Proof.
  unfold delete. induction col as [ | d col IH]; [ reflexivity | ].
  cbn. destruct (has_name name d) eqn:Hd; cbn; [ exact IH | ].
  rewrite Hd. exact IH.
Qed.

(** X14: [delete] then [get] raises PartitionNotFound and [exists] is
    false; [delete] of a name without document changes nothing, so a
    second [delete] changes nothing; and for every other name [get] and
    [exists] answer as before. *)
Theorem delete_get name col :
  get name (delete name col) = inl (PartitionNotFound name) /\
  exists_ name (delete name col) = false /\
  (exists_ name col = false -> delete name col = col) /\
  delete name (delete name col) = delete name col /\
  (forall name', name' <> name ->
     get name' (delete name col) = get name' col /\
     exists_ name' (delete name col) = exists_ name' col).
Proof.
  assert (Habsent : forall col',
             List.find (has_name name) col' = None ->
             delete name col' = col').
  { intros col'. unfold delete.
    induction col' as [ | d col' IH]; [ reflexivity | ].
    cbn. destruct (has_name name d); [ discriminate | ].
    cbn. intros Hnone. rewrite IH by exact Hnone. reflexivity. }
  unfold get, exists_. rewrite find_delete_same.
  split; [ reflexivity | split; [ reflexivity | split; [ | split ] ] ].
  - intros Hex. apply Habsent.
    destruct (List.find (has_name name) col); [ discriminate | reflexivity ].
  - apply Habsent, find_delete_same.
  - intros name' Hne. rewrite (find_delete_other _ _ _ Hne). auto.
Qed.

(** X15: what [get] does is decided by the first document with the
    name.  Without one, which is when [exists] is false, it raises
    PartitionNotFound; with one that lacks the field [h], or else the
    field [w], it raises KeyError for that field; otherwise it returns
    the document's name, hosts and weight.  It raises nothing else. *)
Theorem get_exists name col :
  (exists_ name col = false <-> get name col = inl (PartitionNotFound name))
  /\
  (exists_ name col = false <-> count name col = 0%nat) /\
  (forall before d after,
     col = before ++ d :: after ->
     (forall d', d' ∈ before -> has_name name d' = false) ->
     has_name name d = true ->
     get name col =
       match d !! "h", d !! "w" with
       | None, _ => inl (KeyError "h")
       | Some _, None => inl (KeyError "w")
       | Some h, Some w =>
           inr (<["name" := PyStr name]>
                  (<["hosts" := h]> {["weight" := w]}))
       end) /\
  (forall e, get name col = inl e ->
     e = PartitionNotFound name \/
     exists_ name col = true /\ (e = KeyError "h" \/ e = KeyError "w")).
Proof.
  assert (Hnorm : forall d, has_name name d = true ->
             _normalize d =
               match d !! "h", d !! "w" with
               | None, _ => inl (KeyError "h")
               | Some _, None => inl (KeyError "w")
               | Some h, Some w =>
                   inr (<["name" := PyStr name]>
                          (<["hosts" := h]> {["weight" := w]}))
               end).
  { intros d Hd. unfold has_name in Hd. unfold _normalize.
    destruct (d !! "n") as [[ | | | n | | ] | ]; try discriminate.
    apply String.eqb_eq in Hd. subst n.
    destruct (d !! "h"); [ | reflexivity ].
    destruct (d !! "w"); reflexivity. }
  pose proof (count_find name col) as Hcount.
  split; [ | split; [ | split ] ].
  - unfold get, exists_.
    destruct (List.find (has_name name) col) as [d | ] eqn:Hfind;
      [ | tauto ].
    split; [ discriminate | ].
    apply List.find_some in Hfind. destruct Hfind as [_ Hd].
    rewrite (Hnorm d Hd).
    destruct (d !! "h"); [ | discriminate ].
    destruct (d !! "w"); discriminate.
  - unfold exists_.
    destruct (List.find (has_name name) col) as [d | ].
    + split; [ discriminate | ].
      intros Hzero. apply Hcount in Hzero. discriminate.
    + split; [ intros _; apply Hcount; reflexivity | reflexivity ].
  - intros before d after -> Hbefore Hd. unfold get. clear Hcount.
    assert (Hfind : List.find (has_name name) (before ++ d :: after)
                    = Some d).
    { induction before as [ | d0 before IH]; cbn.
      - rewrite Hd. reflexivity.
      - rewrite (Hbefore d0) by (apply elem_of_cons; auto).
        apply IH. intros d' Hd'. apply Hbefore, elem_of_cons. auto. }
    rewrite Hfind. apply Hnorm, Hd.
  - unfold get, exists_.
    destruct (List.find (has_name name) col) as [d | ] eqn:Hfind.
    + apply List.find_some in Hfind. destruct Hfind as [_ Hd].
      rewrite (Hnorm d Hd). intros e He. right. split; [ reflexivity | ].
      destruct (d !! "h"); [ | injection He as <-; auto ].
      destruct (d !! "w"); [ discriminate | injection He as <-; auto ].
    + intros e [= <-]. auto.
Qed.

Lemma update_fields_keep_name kwargs name' d :
  has_name name' (update_fields kwargs ∪ d) = has_name name' d.
Proof.
  rewrite has_name_union.
  destruct (update_fields_spec kwargs) as [_ Hother].
  rewrite Hother by discriminate. reflexivity.
Qed.

(** X16: [update] never creates, removes or renames a document: whether
    it returns or raises, the collection has as many documents as before
    and as many of every name. *)
Theorem update_keeps_names name kwargs col name' :
  count name' (update name kwargs col).1 = count name' col /\
  length (update name kwargs col).1 = length col.
Proof.
  unfold update.
  destruct (Nat.eqb (size (update_fields kwargs)) 0); [ auto | ].
  pose proof (col_update_count name (update_fields kwargs) col name'
                (fun d _ => update_fields_keep_name kwargs name' d))
    as Hkeep.
  destruct (col_update name (update_fields kwargs) col) as [col' b].
  destruct b; exact Hkeep.
Qed.

(** X17: [update] then [get].  When [update] returns and [get] gave a
    record before, [get] gives a record with the same name after; its
    hosts (resp. weight) is as before when [hosts] (resp. [weight]) was
    not supplied, and a value that was supplied otherwise. *)
Theorem update_get name kwargs col col' r :
  update name kwargs col = (col', inr tt) ->
  get name col = inr r ->
  exists r',
    get name col' = inr r' /\
    r' !! "name" = r !! "name" /\
    (forall key, key ∈ ["hosts"; "weight"] ->
       (~ supplied key kwargs -> r' !! key = r !! key) /\
       (supplied key kwargs ->
        exists v, (key, v) ∈ kwargs /\ v <> PyNone /\ r' !! key = Some v)).
Proof.
  intros Hupd Hget.
  destruct (update_fields_spec kwargs) as [Hkeys Hother].
  unfold update in Hupd.
  destruct (Nat.eqb (size (update_fields kwargs)) 0); [ discriminate | ].
  pose proof (col_update_find name (update_fields kwargs) col) as Hfind.
  unfold get in Hget.
  destruct (List.find (has_name name) col) as [d | ]; [ | discriminate ].
  destruct Hfind as [_ Hfound].
  { intros d' Hd'. rewrite update_fields_keep_name. exact Hd'. }
  destruct (col_update name (update_fields kwargs) col) as [col0 b].
  destruct b; [ | discriminate ].
  injection Hupd as <-. cbn [fst] in Hfound.
  pose proof Hget as Hnorm.
  unfold get. rewrite Hfound.
  unfold _normalize in *.
  rewrite (lookup_union_r _ d "n") by (apply Hother; discriminate).
  destruct (d !! "n") as [n | ]; [ | discriminate ].
  destruct (d !! "h") as [h | ] eqn:Hh; [ | discriminate ].
  destruct (d !! "w") as [w | ] eqn:Hw; [ | discriminate ].
  injection Hnorm as <-.
  assert (Hsome : forall k v, d !! k = Some v ->
             is_Some ((update_fields kwargs ∪ d) !! k)).
  { intros k v Hk. rewrite lookup_union.
    destruct (update_fields kwargs !! k); rewrite Hk; cbn; eauto. }
  destruct (Hsome "h" h Hh) as [h' Hh'].
  destruct (Hsome "w" w Hw) as [w' Hw'].
  rewrite Hh', Hw'.
  eexists. split; [ reflexivity | ].
  split; [ rewrite !lookup_insert_eq; reflexivity | ].
  intros key Hkey.
  destruct (Hkeys key Hkey) as [Hiff Hval].
  assert (Hrec : forall (hv wv : pyval),
             (<["name" := n]> (<["hosts" := hv]> {["weight" := wv]})
                : gmap string pyval) !! key
             = if String.eqb key "hosts" then Some hv else Some wv).
  { intros hv wv.
    apply elem_of_cons in Hkey. destruct Hkey as [-> | Hkey].
    - rewrite lookup_insert_ne by discriminate.
      rewrite lookup_insert_eq. reflexivity.
    - apply list_elem_of_singleton in Hkey. subst key.
      rewrite !lookup_insert_ne by discriminate.
      rewrite lookup_singleton_eq. reflexivity. }
  rewrite !Hrec.
  assert (Hshort : (update_fields kwargs ∪ d) !! first_char key
                   = if String.eqb key "hosts" then Some h' else Some w').
  { apply elem_of_cons in Hkey. destruct Hkey as [-> | Hkey].
    - exact Hh'.
    - apply list_elem_of_singleton in Hkey. subst key. exact Hw'. }
  assert (Hold : d !! first_char key
                 = if String.eqb key "hosts" then Some h else Some w).
  { apply elem_of_cons in Hkey. destruct Hkey as [-> | Hkey].
    - exact Hh.
    - apply list_elem_of_singleton in Hkey. subst key. exact Hw. }
  split.
  - intros Hns. rewrite <- Hshort, <- Hold.
    apply lookup_union_r.
    destruct (update_fields kwargs !! first_char key) eqn:E;
      [ | reflexivity ].
    exfalso. apply Hns, Hiff. eauto.
  - intros Hs. apply Hiff in Hs. destruct Hs as [v Hv].
    destruct (Hval v Hv) as [Hin Hne].
    exists v. split; [ exact Hin | split; [ exact Hne | ] ].
    rewrite <- Hshort. apply lookup_union_Some_l, Hv.
Qed.

Lemma normalize_named name d r :
  _normalize d = inr r -> record_named name r = has_name name d.
Proof.
  unfold _normalize, record_named, has_name.
  destruct (d !! "n") as [n | ]; [ | discriminate ].
  destruct (d !! "h"); [ | discriminate ].
  destruct (d !! "w"); [ | discriminate ].
  intros [= <-]. rewrite lookup_insert_eq. reflexivity.
Qed.

(** X18: [list] yields, in the order of the documents, the record of
    each document up to the first one [_normalize] fails on, and ends
    there with that KeyError, or ends without error after the last
    document.  When it ends without error, [get] returns the first
    yielded record with the name, and raises PartitionNotFound when no
    yielded record has it.  After [drop_all] it yields nothing. *)
Theorem list_get col :
  (exists docs rest,
     col = docs ++ rest /\
     Forall2 (fun d r => _normalize d = inr r) docs (list_ col).1 /\
     match (list_ col).2 with
     | None => rest = []
     | Some e => exists d rest', rest = d :: rest' /\ _normalize d = inl e
     end) /\
  ((list_ col).2 = None ->
   forall name,
     get name col =
       match List.find (record_named name) (list_ col).1 with
       | Some r => inr r
       | None => inl (PartitionNotFound name)
       end) /\
  list_ (drop_all col) = ([], None).
Proof.
  split; [ | split; [ | reflexivity ] ].
  - induction col as [ | d col IH].
    + exists [], []. cbn. split; [ reflexivity | split; [ constructor | ] ].
      reflexivity.
    + cbn [list_]. destruct (_normalize d) as [e | r] eqn:Hd.
      * exists [], (d :: col). cbn.
        split; [ reflexivity | split; [ constructor | eauto ] ].
      * destruct IH as (docs & rest & -> & Hall & Hend).
        exists (d :: docs), rest. cbn [fst snd].
        split; [ reflexivity | split; [ constructor; assumption | ] ].
        exact Hend.
  - induction col as [ | d col IH]; intros Hend name; [ reflexivity | ].
    cbn [list_] in *. unfold get in *. cbn [List.find].
    destruct (_normalize d) as [e | r] eqn:Hd; [ discriminate | ].
    cbn [fst snd] in *. cbn [List.find].
    rewrite (normalize_named name d r Hd).
    destruct (has_name name d); [ exact Hd | ].
    apply IH, Hend.
Qed.

End PartitionsStore.

Lemma update_get_witness :
  exists r',
    Partitions.get "s1"
      (Partitions.update "s1" [("weight", PyInt 5)] one_partition).1
      = inr r' /\
    r' !! "name" = Some (PyStr "s1") /\
    r' !! "hosts" = Some (PyList [PyStr "10.0.0.1"]) /\
    r' !! "weight" = Some (PyInt 5).
Proof.
  assert (Hupd : Partitions.update "s1" [("weight", PyInt 5)] one_partition
                 = ((Partitions.update "s1" [("weight", PyInt 5)]
                       one_partition).1, inr tt)).
  { vm_compute. reflexivity. }
  assert (Hget : Partitions.get "s1" one_partition
                 = inr (<["name" := PyStr "s1"]>
                          (<["hosts" := PyList [PyStr "10.0.0.1"]]>
                             {["weight" := PyInt 100]}))).
  { vm_compute. reflexivity. }
  destruct (update_get "s1" [("weight", PyInt 5)] one_partition _ _
              Hupd Hget) as (r' & Hget' & Hname & Hkeys).
  exists r'. split; [ exact Hget' | split; [ exact Hname | split ] ].
  - destruct (Hkeys "hosts" hosts_key) as [Hsame _].
    rewrite Hsame; [ reflexivity | ].
    intros (v & Hin & _).
    apply list_elem_of_singleton in Hin. discriminate.
  - destruct (Hkeys "weight" weight_key) as [_ Hnew].
    destruct Hnew as (v & Hin & _ & Hv).
    + exists (PyInt 5).
      split; [ apply list_elem_of_singleton; reflexivity | discriminate ].
    + apply list_elem_of_singleton in Hin. injection Hin as <-. exact Hv.
Defined.

Lemma get_exists_witness :
  Partitions.get "s1" partition_without_hosts = inl (KeyError "h") /\
  Partitions.exists_ "s1" partition_without_hosts = true /\
  Partitions.get "s1" one_partition
    = inr (<["name" := PyStr "s1"]>
             (<["hosts" := PyList [PyStr "10.0.0.1"]]>
                {["weight" := PyInt 100]})).
Proof.
  split; [ | split; [ reflexivity | ] ].
  - apply (proj1 (proj2 (proj2 (get_exists "s1" partition_without_hosts)))
             [] (<["n" := PyStr "s1"]> {["w" := PyInt 100]}) [] eq_refl).
    + intros d' Hd'. apply elem_of_nil in Hd'. destruct Hd'.
    + reflexivity.
  - apply (proj1 (proj2 (proj2 (get_exists "s1" one_partition)))
             [] (<["n" := PyStr "s1"]>
                   (<["w" := PyInt 100]>
                      {["h" := PyList [PyStr "10.0.0.1"]]})) [] eq_refl).
    + intros d' Hd'. apply elem_of_nil in Hd'. destruct Hd'.
    + reflexivity.
Defined.
